(** * google-cloud-cpp storage client: request pipeline

    A shallow embedding of
    - [google/cloud/storage/internal/request_parameters.h]
      (the optional-parameter lists of a request),
    - [google/cloud/storage/internal/logging_client.cc]
      (the logging decorator),
    - [google/cloud/storage/client.h] (the facade),
    together with the retry decorator and the Bigtable [RaiseRpcError]
    helper, whose implementation files are not part of the sources and are
    modelled from the specification.

    The file has two parts: the embedding, then the properties. *)

From Stdlib Require Import List String Bool Arith Lia Permutation.
Import ListNotations.
Open Scope string_scope.

(** * Part I: the embedding *)

(** [HasSubstr needle hay]: gmock's matcher of the same name. *)
Definition HasSubstr (needle hay : string) : Prop :=
  exists pre post, hay = pre ++ needle ++ post.

(** A call that overload resolution may reject yields [None]; [obind]
    sequences such calls. *)
Definition obind {A B} (o : option A) (f : A -> option B) : option B :=
  match o with
  | Some a => f a
  | None => None
  end.

(** ** request_parameters.h *)

Module RequestParameters.

Section ParameterList.

(** The parameter classes ([UserProject], [Projection], ...) live in a header
    that is not part of the sources: a parameter class is a [Kind], with its
    [parameter_name()]; the wrapped value is streamed with [show_value]. *)
Variable Kind : Type.
Hypothesis Kind_eq_dec : forall a b : Kind, {a = b} + {a <> b}.
Variable Value : Type.
Variable parameter_name : Kind -> string.
Variable show_value : Value -> string.

(** An object of a parameter class: present or absent. *)
Record OptionalParameter : Type := mkParameter {
  kind : Kind;
  value : option Value
}.

Definition has_value (p : OptionalParameter) : bool :=
  match value p with
  | Some _ => true
  | None => false
  end.

(** [RequestParameterList<Derived, Parameter>] is the base of the hierarchy,
    [RequestParameterList<Derived, Parameter, Parameters...>] derives from
    [RequestParameterList<Derived, Parameters...>]; each level holds one
    [parameter_] member. *)
Inductive RequestParameterList : Type :=
| Single (parameter_ : OptionalParameter)
| Inherit (parameter_ : OptionalParameter) (base : RequestParameterList).

(** The [parameter_] members, most derived class first: the order of the
    template arguments. *)
Fixpoint members (l : RequestParameterList) : list OptionalParameter :=
  match l with
  | Single p => [p]
  | Inherit p base => p :: members base
  end.

Definition declared_kinds (l : RequestParameterList) : list Kind :=
  map kind (members l).

(** [set_parameter(Parameter&& p)]: every level declares an overload for its
    own parameter class and re-exports the overloads of its base with a
    using-declaration; an overload of the derived class hides one of the same
    signature in the base.  [None]: no overload accepts the argument, the call
    does not compile.  The argument [p] is the object that is passed; whether
    [Parameter&&] binds to the argument expression (an rvalue that is not
    const) is the matter of [ParameterCalls] below. *)
Fixpoint set_parameter (p : OptionalParameter) (l : RequestParameterList)
  : option RequestParameterList :=
  match l with
  | Single q =>
      if Kind_eq_dec (kind p) (kind q) then Some (Single p) else None
  | Inherit q base =>
      if Kind_eq_dec (kind p) (kind q) then Some (Inherit p base)
      else obind (set_parameter p base) (fun base' => Some (Inherit q base'))
  end.

(** [AddParametersToHttpRequest(HttpRequest& request)], for any class
    [HttpRequest] with an [AddWellKnownParameter] member. *)
Fixpoint AddParametersToHttpRequest {HttpRequest : Type}
  (AddWellKnownParameter : OptionalParameter -> HttpRequest -> HttpRequest)
  (l : RequestParameterList) (request : HttpRequest) : HttpRequest :=
  match l with
  | Single p => AddWellKnownParameter p request
  | Inherit p base =>
      AddParametersToHttpRequest AddWellKnownParameter base
        (AddWellKnownParameter p request)
  end.

(** [os << sep << parameter_.parameter_name() << "=" << parameter_.value()];
    the stream is the text written so far. *)
Definition stream_parameter (os sep : string) (k : Kind) (v : Value)
  : string :=
  os ++ sep ++ parameter_name k ++ "=" ++ show_value v.

(** [DumpParameters(std::ostream& os, char const* sep)] *)
Fixpoint DumpParameters (l : RequestParameterList) (os sep : string)
  : string :=
  match l with
  | Single p =>
      match value p with
      | Some v => stream_parameter os sep (kind p) v
      | None => os
      end
  | Inherit p base =>
      match value p with
      | Some v =>
          DumpParameters base (stream_parameter os sep (kind p) v) ", "
      | None => DumpParameters base os sep
      end
  end.

(** [GenericRequest::set_multiple_parameters(H&& h, T&&... tail)] and the
    overload without arguments, on the objects that are passed (see
    [ParameterCalls] for the value categories of the arguments). *)
Fixpoint set_multiple_parameters (ps : list OptionalParameter)
  (l : RequestParameterList) : option RequestParameterList :=
  match ps with
  | [] => Some l
  | h :: tail => obind (set_parameter h l) (set_multiple_parameters tail)
  end.

(** *** Vocabulary of the properties *)

(** The text of one parameter in a dump; nothing for an absent one. *)
Definition dump_entry (p : OptionalParameter) : list string :=
  match value p with
  | Some v => [parameter_name (kind p) ++ "=" ++ show_value v]
  | None => []
  end.

Definition dump_entries (l : RequestParameterList) : list string :=
  flat_map dump_entry (members l).

(** What a dump adds to the stream: nothing when no parameter is set,
    otherwise the caller's separator and the entries joined by [", "]. *)
Definition dump_text (entries : list string) (sep : string) : string :=
  match entries with
  | [] => ""
  | _ :: _ => sep ++ String.concat ", " entries
  end.

(** The parameters of a request that are present, in declaration order. *)
Definition present (l : RequestParameterList) : list OptionalParameter :=
  filter has_value (members l).

(** The member that a parameter of class [k] is assigned to: the one of the
    most derived level that declares [k]. *)
Definition parameter_of_kind (k : Kind) (l : RequestParameterList)
  : option OptionalParameter :=
  find (fun q => if Kind_eq_dec k (kind q) then true else false) (members l).

(** [set_parameter] applied to each argument in turn, left to right. *)
Definition set_each (ps : list OptionalParameter) (l : RequestParameterList)
  : option RequestParameterList :=
  fold_left (fun acc p => obind acc (set_parameter p)) ps (Some l).

End ParameterList.

Arguments mkParameter {Kind Value} _ _.
Arguments kind {Kind Value} _.
Arguments value {Kind Value} _.
Arguments has_value {Kind Value} _.
Arguments Single {Kind Value} _.
Arguments Inherit {Kind Value} _ _.
Arguments members {Kind Value} _.
Arguments declared_kinds {Kind Value} _.
Arguments set_parameter {Kind} _ {Value} _ _.
Arguments AddParametersToHttpRequest {Kind Value HttpRequest} _ _ _.
Arguments DumpParameters {Kind Value} _ _ _ _ _.
Arguments set_multiple_parameters {Kind} _ {Value} _ _.
Arguments dump_entry {Kind Value} _ _ _.
Arguments dump_entries {Kind Value} _ _ _.
Arguments present {Kind Value} _.
Arguments parameter_of_kind {Kind} _ {Value} _ _.
Arguments set_each {Kind} _ {Value} _ _.
Arguments dump_text _ _ : clear implicits.

End RequestParameters.

(** ** The parameter classes of the storage client

    The modifiers that the documentation of [Client] in [client.h] names.
    Their header is not part of the sources: the names are those of the
    query parameters of the JSON API, and every value is kept as its text. *)

Module StorageParameters.

Inductive Kind : Type :=
| MaxResults
| Prefix
| UserProject
| Projection
| Generation
| IfGenerationMatch
| IfGenerationNotMatch
| IfMetagenerationMatch
| IfMetagenerationNotMatch.

Definition Kind_eq_dec (a b : Kind) : {a = b} + {a <> b}.
Proof. decide equality. Defined.

Definition parameter_name (k : Kind) : string :=
  match k with
  | MaxResults => "maxResults"
  | Prefix => "prefix"
  | UserProject => "userProject"
  | Projection => "projection"
  | Generation => "generation"
  | IfGenerationMatch => "ifGenerationMatch"
  | IfGenerationNotMatch => "ifGenerationNotMatch"
  | IfMetagenerationMatch => "ifMetagenerationMatch"
  | IfMetagenerationNotMatch => "ifMetagenerationNotMatch"
  end.

Definition Value : Type := string.

Definition show_value (v : Value) : string := v.

Definition Modifier : Type := RequestParameters.OptionalParameter Kind Value.

Definition Parameters : Type := RequestParameters.RequestParameterList Kind Value.

(** A default-constructed parameter list: every member absent. *)
Fixpoint unset (k : Kind) (ks : list Kind) : Parameters :=
  match ks with
  | [] => RequestParameters.Single (RequestParameters.mkParameter k None)
  | k' :: ks' =>
      RequestParameters.Inherit (RequestParameters.mkParameter k None)
        (unset k' ks')
  end.

(** Modelled from the spec: the transport's request, whose class is not part
    of the sources; what goes onto the wire is its list of query
    parameters. *)
Definition HttpRequest : Type := list (string * string).

(** Modelled from the spec: the [AddWellKnownParameter] hook of the
    transport's request, which encodes a present parameter as one more query
    parameter and leaves the request alone for an absent one. *)
Definition AddWellKnownParameter (p : Modifier) (request : HttpRequest)
  : HttpRequest :=
  match RequestParameters.value p with
  | Some v =>
      (request ++ [(parameter_name (RequestParameters.kind p), show_value v)])%list
  | None => request
  end.

End StorageParameters.

(** ** Fatal errors *)

(** [grpc::Status], as the Bigtable helper receives it. *)
Module Grpc.

Inductive StatusCode : Type :=
| OK
| CANCELLED
| UNKNOWN
| INVALID_ARGUMENT
| DEADLINE_EXCEEDED
| NOT_FOUND
| ALREADY_EXISTS
| PERMISSION_DENIED
| RESOURCE_EXHAUSTED
| FAILED_PRECONDITION
| ABORTED
| OUT_OF_RANGE
| UNIMPLEMENTED
| INTERNAL
| UNAVAILABLE
| DATA_LOSS
| UNAUTHENTICATED.

Record Status : Type := mkStatus {
  error_code : StatusCode;
  error_message : string
}.

End Grpc.

Module Errors.

(** The exceptions that the tests expect: [std::runtime_error] and
    [bigtable::GRpcError], each with its [what()]. *)
Inductive Exception : Type :=
| runtime_error (what : string)
| GRpcError (what : string) (status : Grpc.Status).

(** How a call ends: it returns to its caller, an exception leaves it, or
    the process is aborted with a message. *)
Inductive Outcome (A : Type) : Type :=
| Returned (a : A)
| Thrown (e : Exception)
| Aborted (msg : string).

Arguments Returned {A} _.
Arguments Thrown {A} _.
Arguments Aborted {A} _.

(** The message a fatal end carries. *)
Definition fatal_message {A} (o : Outcome A) : option string :=
  match o with
  | Returned _ => None
  | Thrown (runtime_error what) => Some what
  | Thrown (GRpcError what _) => Some what
  | Aborted msg => Some msg
  end.

(** A fatal end whose message names a reason class and an operation. *)
Definition fatal_naming {A} (o : Outcome A) (reason operation : string)
  : Prop :=
  exists m,
    fatal_message o = Some m /\ HasSubstr reason m /\ HasSubstr operation m.

(** What the process prints before it aborts when exceptions are compiled
    out: [bucket_test.cc] expects the text "exceptions are disabled" in the
    output of the dying process. *)
Definition abort_banner : string := "Aborting because exceptions are disabled: ".

End Errors.

(** ** Status values and the world a call runs in *)

Module Pipeline.

Export Errors.

(** Modelled from the spec: the [Status] class, whose header is not part of
    the sources.  A status is a (kind, message) pair; a kind is OK, a
    transient (retryable) failure or a permanent (non-retryable) failure. *)
Inductive StatusKind : Type :=
| OK
| TransientFailure
| PermanentFailure.

Record Status : Type := mkStatus {
  status_kind : StatusKind;
  message : string
}.

(** Modelled from the spec: [RaiseRuntimeError], the single translation point
    of a terminal failure into a fatal error.  [have_exceptions] is the macro
    [GOOGLE_CLOUD_CPP_HAVE_EXCEPTIONS]; without a raising mechanism the
    process aborts with the same descriptive message. *)
Definition RaiseRuntimeError {A} (have_exceptions : bool) (msg : string)
  : Outcome A :=
  if have_exceptions then Thrown (runtime_error msg)
  else Aborted (abort_banner ++ msg).

Section World.

(** The state of the transport at the end of the chain (for a test, the
    mock and its expectations). *)
Variable ClientState : Type.

(** What a call can change: the transport, the number of calls that reached
    it, the log sink, and the delays the calling thread has slept. *)
Record World : Type := mkWorld {
  client : ClientState;
  invocations : nat;
  log : list string;
  slept : list nat
}.

Definition M (A : Type) : Type := World -> A * World.

Definition ret {A} (a : A) : M A := fun w => (a, w).

Definition bind {A B} (c : M A) (k : A -> M B) : M B :=
  fun w => let (a, w') := c w in k a w'.

(** [GCP_LOG(INFO) << line] *)
Definition GCP_LOG (line : string) : M unit :=
  fun w =>
    (tt, {| client := client w; invocations := invocations w;
            log := (log w ++ [line])%list; slept := slept w |}).

(** [std::this_thread::sleep_for(delay)] *)
Definition sleep_for (delay : nat) : M unit :=
  fun w =>
    (tt, {| client := client w; invocations := invocations w;
            log := log w; slept := (slept w ++ [delay])%list |}).

(** A member function of the transport: from a request and the state of the
    transport to a (status, response) pair and the next state. *)
Definition MemberFunction (Request Response : Type) : Type :=
  Request -> ClientState -> (Status * Response) * ClientState.

(** [(client.*function)(request)] on the transport itself. *)
Definition invoke {Request Response}
  (function : MemberFunction Request Response) (request : Request)
  : M (Status * Response) :=
  fun w =>
    let (response, client') := function request (client w) in
    (response, {| client := client'; invocations := S (invocations w);
                  log := log w; slept := slept w |}).

(** An operation of a [RawClient]: the transport's, or a decorator's. *)
Definition RawOperation (Request Response : Type) : Type :=
  Request -> M (Status * Response).

(** The state of the transport after [n] calls with the same request, and
    the pair that call number [n] (counting from 0) returns. *)
Fixpoint client_after {Request Response}
  (function : MemberFunction Request Response) (request : Request)
  (n : nat) (s : ClientState) : ClientState :=
  match n with
  | 0 => s
  | S n' => client_after function request n' (snd (function request s))
  end.

Definition reply {Request Response}
  (function : MemberFunction Request Response) (request : Request)
  (n : nat) (s : ClientState) : Status * Response :=
  fst (function request (client_after function request n s)).

End World.

Arguments mkWorld {ClientState} _ _ _ _.
Arguments client {ClientState} _.
Arguments invocations {ClientState} _.
Arguments log {ClientState} _.
Arguments slept {ClientState} _.
Arguments ret {ClientState A} _ _.
Arguments bind {ClientState A B} _ _ _.
Arguments GCP_LOG {ClientState} _ _.
Arguments sleep_for {ClientState} _ _.
Arguments invoke {ClientState Request Response} _ _ _.
Arguments client_after {ClientState Request Response} _ _ _ _.
Arguments reply {ClientState Request Response} _ _ _ _.

Declare Scope pipeline_scope.
Delimit Scope pipeline_scope with pipeline.
Notation "x <- c ;; k" := (bind c (fun x => k))
  (at level 61, c at next level, right associativity) : pipeline_scope.
Notation "c ;;; k" := (bind c (fun _ => k))
  (at level 61, right associativity) : pipeline_scope.

End Pipeline.

(** ** logging_client.cc *)

Module LoggingClient.

Import Pipeline.

Section MakeCall.

Variable ClientState : Type.
Variables Request Response : Type.

(** The stream operators of the request, the status and the response. *)
Variable show_request : Request -> string.
Variable show_status : Status -> string.
Variable show_response : Response -> string.

Definition request_line (context : string) (request : Request) : string :=
  context ++ " << " ++ show_request request.

Definition response_line (context : string) (response : Status * Response)
  : string :=
  context ++ " >> status={" ++ show_status (fst response) ++ "}, payload={"
    ++ show_response (snd response) ++ "}".

(** [MakeCall(client, function, request, context)]; [client_function] is
    [client.*function], an operation of the wrapped [RawClient]. *)
Definition MakeCall (client_function : RawOperation ClientState Request Response)
  (request : Request) (context : string) : M ClientState (Status * Response) :=
  (GCP_LOG (request_line context request) ;;;
   response <- client_function request ;;
   GCP_LOG (response_line context response) ;;;
   ret response)%pipeline.

End MakeCall.

Arguments request_line {Request} _ _ _.
Arguments response_line {Response} _ _ _ _.
Arguments MakeCall {ClientState Request Response} _ _ _ _ _ _.

End LoggingClient.

(** ** The retry decorator *)

Module RetryClient.

Import Pipeline.

(** Modelled from the spec: the retry policy, whose header is not part of
    the sources.  A policy is stateful; a fresh working copy is made at the
    start of every call; asked about a transient failure it says whether
    another attempt is allowed, and an allowed attempt is counted. *)
Class RetryPolicy (P : Type) : Type := {
  retry_clone : P -> P;
  attempt_allowed : P -> Status -> bool;
  count_attempt : P -> P
}.

(** Modelled from the spec: the backoff policy, stateful and independent of
    the retry policy, computes the delay before the next attempt. *)
Class BackoffPolicy (B : Type) : Type := {
  backoff_clone : B -> B;
  on_completion : B -> nat * B
}.

(** Modelled from the spec: the policy with an attempt budget that
    [bucket_test.cc] builds with [LimitedErrorCountRetryPolicy(2)]; it tracks
    the attempts so far against the configured limit. *)
Record LimitedErrorCountRetryPolicy : Type := mkLimitedErrorCount {
  maximum_failures : nat;
  failure_count : nat
}.

(** [LimitedErrorCountRetryPolicy(maximum_failures)] *)
Definition LimitedErrorCount (maximum_failures : nat)
  : LimitedErrorCountRetryPolicy :=
  mkLimitedErrorCount maximum_failures 0.

(** Modelled from the spec: another attempt is allowed while the attempts so
    far are below the limit; a clone starts from no attempt. *)
#[export] Instance LimitedErrorCount_RetryPolicy
  : RetryPolicy LimitedErrorCountRetryPolicy := {
  retry_clone p := mkLimitedErrorCount (maximum_failures p) 0;
  attempt_allowed p _ := Nat.ltb (failure_count p) (maximum_failures p);
  count_attempt p := mkLimitedErrorCount (maximum_failures p) (S (failure_count p))
}.

(** Modelled from the spec: a backoff whose delay doubles up to a maximum. *)
Record ExponentialBackoffPolicy : Type := mkExponentialBackoff {
  current_delay : nat;
  maximum_delay : nat
}.

(** Modelled from the spec: each consultation gives the current delay and
    doubles it for the next one. *)
#[export] Instance ExponentialBackoff_BackoffPolicy
  : BackoffPolicy ExponentialBackoffPolicy := {
  backoff_clone b := b;
  on_completion b :=
    (current_delay b,
     mkExponentialBackoff (Nat.min (2 * current_delay b) (maximum_delay b))
       (maximum_delay b))
}.

Section MakeCall.

Variable ClientState : Type.
Variables Request Response : Type.
Context {P B : Type} `{RetryPolicy P} `{BackoffPolicy B}.

(** The macro [GOOGLE_CLOUD_CPP_HAVE_EXCEPTIONS]. *)
Variable have_exceptions : bool.

(** Modelled from the spec: the messages of the two terminal failures,
    "Permanent error in <Op>" and "Retry policy exhausted in <Op>". *)
Definition permanent_error_in (error_message : string) : string :=
  "Permanent error in " ++ error_message.

Definition retry_policy_exhausted_in (error_message : string) : string :=
  "Retry policy exhausted in " ++ error_message.

(** Modelled from the spec: the loop of the retry decorator (its source
    file is not part of the sources).  Invoke the inner client once and
    inspect the status: OK returns the pair; a permanent failure stops at
    once, without consulting the retry policy; on a transient failure the
    retry policy is asked whether another attempt is allowed: if so the
    backoff policy gives a delay, the thread waits, the attempt is counted
    and the loop goes on, if not the call is exhausted.  A terminal failure
    is turned into a fatal error that names the reason class and the
    operation.  [fuel] bounds the number of iterations unfolded; [None] is
    a loop that has not ended within [fuel] iterations. *)
Fixpoint retry_loop (fuel : nat) (retry_policy : P) (backoff_policy : B)
  (client_function : RawOperation ClientState Request Response)
  (request : Request) (error_message : string)
  : M ClientState (option (Outcome (Status * Response))) :=
  match fuel with
  | 0 => ret None
  | S fuel' =>
      (result <- client_function request ;;
       match status_kind (fst result) with
       | OK => ret (Some (Returned result))
       | PermanentFailure =>
           ret (Some (RaiseRuntimeError have_exceptions
                        (permanent_error_in error_message)))
       | TransientFailure =>
           if attempt_allowed retry_policy (fst result) then
             let (delay, backoff_policy') := on_completion backoff_policy in
             sleep_for delay ;;;
             retry_loop fuel' (count_attempt retry_policy) backoff_policy'
               client_function request error_message
           else
             ret (Some (RaiseRuntimeError have_exceptions
                          (retry_policy_exhausted_in error_message)))
       end)%pipeline
  end.

(** Modelled from the spec: one call through the retry decorator, with
    fresh clones of the configured prototypes. *)
Definition MakeCall (fuel : nat) (retry_policy : P) (backoff_policy : B)
  (client_function : RawOperation ClientState Request Response)
  (request : Request) (error_message : string)
  : M ClientState (option (Outcome (Status * Response))) :=
  retry_loop fuel (retry_clone retry_policy) (backoff_clone backoff_policy)
    client_function request error_message.

End MakeCall.

Arguments permanent_error_in _ : clear implicits.
Arguments retry_policy_exhausted_in _ : clear implicits.
Arguments retry_loop {ClientState Request Response P B _ _} _ _ _ _ _ _ _ _.
Arguments MakeCall {ClientState Request Response P B _ _} _ _ _ _ _ _ _ _.

End RetryClient.

(** ** client.h *)

Module Facade.

Import Pipeline StorageParameters.

(** The request classes are declared in headers that are not part of the
    sources: a request holds its required fields, fixed at construction, and
    the parameter list that [GenericRequest] gives it. *)
Record GenericRequest (Required : Type) : Type := mkRequest {
  required : Required;
  parameters : Parameters
}.

Arguments mkRequest {Required} _ _.
Arguments required {Required} _.
Arguments parameters {Required} _.

(** [request.set_multiple_parameters(std::forward<Modifiers>(modifiers)...)],
    on the objects of modifiers that are passed as rvalues. *)
Definition set_multiple_parameters {Required} (modifiers : list Modifier)
  (request : GenericRequest Required) : option (GenericRequest Required) :=
  obind
    (RequestParameters.set_multiple_parameters Kind_eq_dec modifiers
       (parameters request))
    (fun l => Some (mkRequest (required request) l)).

(** [ListBucketsRequest(project_id)] *)
Definition ListBucketsRequest : Type := GenericRequest string.

Definition new_ListBucketsRequest (project_id : string) : ListBucketsRequest :=
  mkRequest project_id (unset MaxResults [Prefix; UserProject; Projection]).

(** The requests on one object: [(bucket_name, object_name)]. *)
Definition GetObjectMetadataRequest : Type := GenericRequest (string * string).

Definition new_GetObjectMetadataRequest (bucket_name object_name : string)
  : GetObjectMetadataRequest :=
  mkRequest (bucket_name, object_name)
    (unset Generation
       [IfGenerationMatch; IfGenerationNotMatch; IfMetagenerationMatch;
        IfMetagenerationNotMatch; Projection; UserProject]).

Definition DeleteObjectRequest : Type := GenericRequest (string * string).

Definition new_DeleteObjectRequest (bucket_name object_name : string)
  : DeleteObjectRequest :=
  mkRequest (bucket_name, object_name)
    (unset Generation
       [IfGenerationMatch; IfGenerationNotMatch; IfMetagenerationMatch;
        IfMetagenerationNotMatch; UserProject]).

Definition ListObjectAclRequest : Type := GenericRequest (string * string).

Definition new_ListObjectAclRequest (bucket_name object_name : string)
  : ListObjectAclRequest :=
  mkRequest (bucket_name, object_name) (unset Generation [UserProject]).

(** A response with an [items] member. *)
Record ListResponse (Item : Type) : Type := mkListResponse {
  items : list Item
}.

Arguments mkListResponse {Item} _.
Arguments items {Item} _.

Inductive EmptyResponse : Type :=
| mkEmptyResponse.

Section Client.

Variable ClientState : Type.
Variables BucketMetadata ObjectMetadata ObjectAccessControl : Type.
Context {P B : Type} `{RetryClient.RetryPolicy P} `{RetryClient.BackoffPolicy B}.

(** The macro [GOOGLE_CLOUD_CPP_HAVE_EXCEPTIONS]. *)
Variable have_exceptions : bool.

(** The operations of [internal::RawClient] that the methods below call. *)
Record RawClient : Type := mkRawClient {
  Raw_ListBuckets :
    RawOperation ClientState ListBucketsRequest (ListResponse BucketMetadata);
  Raw_GetObjectMetadata :
    RawOperation ClientState GetObjectMetadataRequest ObjectMetadata;
  Raw_DeleteObject :
    RawOperation ClientState DeleteObjectRequest EmptyResponse;
  Raw_ListObjectAcl :
    RawOperation ClientState ListObjectAclRequest
      (ListResponse ObjectAccessControl)
}.

(** The two constructors that take a [RawClient]:
    [Client(client, policies...)] sets [raw_client_] to a new [RetryClient]
    around [client]; [Client(client, NoRetry)] sets [raw_client_] to [client]
    itself. *)
Inductive Client : Type :=
| Client_with_policies (client : RawClient) (retry_policy : P)
    (backoff_policy : B)
| Client_NoRetry (client : RawClient).

(** A call on the facade or on [raw_client_]: it may end in a fatal error,
    and the retry loop is unfolded [fuel] times at most. *)
Definition Call (A : Type) : Type := M ClientState (option (Outcome A)).

Definition outcome_map {A A'} (f : A -> A') (o : Outcome A) : Outcome A' :=
  match o with
  | Returned a => Returned (f a)
  | Thrown e => Thrown e
  | Aborted msg => Aborted msg
  end.

(** [raw_client_->Operation(request)], a virtual call: on a [RetryClient]
    it runs the retry decorator's call around the wrapped client, named after
    the operation; on the client passed with [NoRetry] it is that client's
    own operation. *)
Definition raw_client_ {Request Response} (c : Client)
  (operation : RawClient -> RawOperation ClientState Request Response)
  (name : string) (fuel : nat) (request : Request)
  : Call (Status * Response) :=
  match c with
  | Client_with_policies client retry_policy backoff_policy =>
      RetryClient.MakeCall have_exceptions fuel retry_policy backoff_policy
        (operation client) request name
  | Client_NoRetry client =>
      (result <- operation client request ;; ret (Some (Returned result)))%pipeline
  end.

(** The value a method returns once [raw_client_] has returned. *)
Definition returning {A A'} (call : Call A) (f : A -> A') : Call A' :=
  (result <- call ;; ret (option_map (outcome_map f) result))%pipeline.

(** [Client::ListBuckets(project_id, modifiers...)] *)
Definition ListBuckets (fuel : nat) (c : Client) (project_id : string)
  (modifiers : list Modifier) : option (Call (list BucketMetadata)) :=
  obind (set_multiple_parameters modifiers (new_ListBucketsRequest project_id))
    (fun request =>
       Some (returning (raw_client_ c Raw_ListBuckets "ListBuckets" fuel request)
               (fun response => items (snd response)))).

(** [Client::GetObjectMetadata(bucket_name, object_name, modifiers...)] *)
Definition GetObjectMetadata (fuel : nat) (c : Client)
  (bucket_name object_name : string) (modifiers : list Modifier)
  : option (Call ObjectMetadata) :=
  obind
    (set_multiple_parameters modifiers
       (new_GetObjectMetadataRequest bucket_name object_name))
    (fun request =>
       Some (returning
               (raw_client_ c Raw_GetObjectMetadata "GetObjectMetadata" fuel
                  request)
               (fun response => snd response))).

(** [Client::DeleteObject(bucket_name, object_name, parameters...)] *)
Definition DeleteObject (fuel : nat) (c : Client)
  (bucket_name object_name : string) (parameters : list Modifier)
  : option (Call unit) :=
  obind
    (set_multiple_parameters parameters
       (new_DeleteObjectRequest bucket_name object_name))
    (fun request =>
       Some (returning
               (raw_client_ c Raw_DeleteObject "DeleteObject" fuel request)
               (fun _ => tt))).

(** [Client::ListObjectAcl(bucket_name, object_name, parameters...)] *)
Definition ListObjectAcl (fuel : nat) (c : Client)
  (bucket_name object_name : string) (parameters : list Modifier)
  : option (Call (list ObjectAccessControl)) :=
  obind
    (set_multiple_parameters parameters
       (new_ListObjectAclRequest bucket_name object_name))
    (fun request =>
       Some (returning
               (raw_client_ c Raw_ListObjectAcl "ListObjectAcl" fuel request)
               (fun response => items (snd response)))).

End Client.

Arguments mkRawClient {ClientState BucketMetadata ObjectMetadata
  ObjectAccessControl} _ _ _ _.
Arguments Raw_ListBuckets {ClientState BucketMetadata ObjectMetadata
  ObjectAccessControl} _ _ _.
Arguments Raw_GetObjectMetadata {ClientState BucketMetadata ObjectMetadata
  ObjectAccessControl} _ _ _.
Arguments Raw_DeleteObject {ClientState BucketMetadata ObjectMetadata
  ObjectAccessControl} _ _ _.
Arguments Raw_ListObjectAcl {ClientState BucketMetadata ObjectMetadata
  ObjectAccessControl} _ _ _.
Arguments Client_with_policies {ClientState BucketMetadata ObjectMetadata
  ObjectAccessControl P B} _ _ _.
Arguments Client_NoRetry {ClientState BucketMetadata ObjectMetadata
  ObjectAccessControl P B} _.
Arguments outcome_map {A A'} _ _.
Arguments raw_client_ {ClientState BucketMetadata ObjectMetadata
  ObjectAccessControl P B _ _} _ {Request Response} _ _ _ _ _ _.
Arguments returning {ClientState A A'} _ _ _.
Arguments ListBuckets {ClientState BucketMetadata ObjectMetadata
  ObjectAccessControl P B _ _} _ _ _ _ _.
Arguments GetObjectMetadata {ClientState BucketMetadata ObjectMetadata
  ObjectAccessControl P B _ _} _ _ _ _ _ _.
Arguments DeleteObject {ClientState BucketMetadata ObjectMetadata
  ObjectAccessControl P B _ _} _ _ _ _ _ _.
Arguments ListObjectAcl {ClientState BucketMetadata ObjectMetadata
  ObjectAccessControl P B _ _} _ _ _ _ _ _.

End Facade.

(** ** The Bigtable error-mapping helper *)

Module Bigtable.

Import Errors.

(** Modelled from the spec: [RaiseRpcError], whose source file is not part of
    the sources (only its test is).  It turns a transport status into a
    raised error or, in an environment without a raising mechanism, into an
    immediate abort of the process with the same descriptive message.
    [have_exceptions] is the macro [GOOGLE_CLOUD_CPP_HAVE_EXCEPTIONS]. *)
Definition RaiseRpcError (have_exceptions : bool) (status : Grpc.Status)
  (msg : string) : Outcome unit :=
  if have_exceptions then Thrown (GRpcError msg status)
  else Aborted (abort_banner ++ msg).

End Bigtable.

(** ** Test doubles *)

Module Testing.

Import Pipeline.

(** Modelled from the spec: [TransientError()] and [PermanentError()] of
    [canonical_errors.h], which is not part of the sources: a status of each
    failure kind. *)
Definition TransientError : Status := mkStatus TransientFailure "try-again".

Definition PermanentError : Status := mkStatus PermanentFailure "not found".

(** An expectation on one method of the mock, as [bucket_test.cc] sets them:
    the [WillOnce] actions, taken in order, then the [WillRepeatedly]
    action. *)
Record Expectation (R : Type) : Type := mkExpectation {
  will_once : list R;
  will_repeatedly : R
}.

Arguments mkExpectation {R} _ _.
Arguments will_once {R} _.
Arguments will_repeatedly {R} _.

(** A mocked method: it performs the next action of its expectation. *)
Definition mock_function {Request Response : Type}
  : MemberFunction (Expectation (Status * Response)) Request Response :=
  fun _ e =>
    match will_once e with
    | action :: rest => (action, mkExpectation rest (will_repeatedly e))
    | [] => (will_repeatedly e, e)
    end.

(** [testing::MockClient]: one expectation per mocked method. *)
Record MockClient (BucketMetadata ObjectMetadata ObjectAccessControl : Type)
  : Type := mkMockClient {
  expect_ListBuckets :
    Expectation (Status * Facade.ListResponse BucketMetadata);
  expect_GetObjectMetadata : Expectation (Status * ObjectMetadata);
  expect_DeleteObject : Expectation (Status * Facade.EmptyResponse);
  expect_ListObjectAcl :
    Expectation (Status * Facade.ListResponse ObjectAccessControl)
}.

Arguments mkMockClient {BucketMetadata ObjectMetadata ObjectAccessControl}
  _ _ _ _.
Arguments expect_ListBuckets {BucketMetadata ObjectMetadata
  ObjectAccessControl} _.
Arguments expect_GetObjectMetadata {BucketMetadata ObjectMetadata
  ObjectAccessControl} _.
Arguments expect_DeleteObject {BucketMetadata ObjectMetadata
  ObjectAccessControl} _.
Arguments expect_ListObjectAcl {BucketMetadata ObjectMetadata
  ObjectAccessControl} _.

(** The mock as a [RawClient]: each method consumes its own expectation. *)
Definition mock_RawClient {BucketMetadata ObjectMetadata ObjectAccessControl}
  : Facade.RawClient
      (MockClient BucketMetadata ObjectMetadata ObjectAccessControl)
      BucketMetadata ObjectMetadata ObjectAccessControl :=
  Facade.mkRawClient
    (invoke (fun request mock =>
       let (result, e) := mock_function request (expect_ListBuckets mock) in
       (result,
        mkMockClient e (expect_GetObjectMetadata mock)
          (expect_DeleteObject mock) (expect_ListObjectAcl mock))))
    (invoke (fun request mock =>
       let (result, e) :=
         mock_function request (expect_GetObjectMetadata mock) in
       (result,
        mkMockClient (expect_ListBuckets mock) e (expect_DeleteObject mock)
          (expect_ListObjectAcl mock))))
    (invoke (fun request mock =>
       let (result, e) := mock_function request (expect_DeleteObject mock) in
       (result,
        mkMockClient (expect_ListBuckets mock) (expect_GetObjectMetadata mock)
          e (expect_ListObjectAcl mock))))
    (invoke (fun request mock =>
       let (result, e) := mock_function request (expect_ListObjectAcl mock) in
       (result,
        mkMockClient (expect_ListBuckets mock) (expect_GetObjectMetadata mock)
          (expect_DeleteObject mock) e))).

(** A mock, with buckets and objects named by strings, on which every
    method answers with [status]; [ListBuckets] has a bucket to list. *)
Definition always (status : Status) : MockClient string string string :=
  mkMockClient
    (mkExpectation [] (status, Facade.mkListResponse ["stale-bucket"]))
    (mkExpectation [] (status, "stale-object"))
    (mkExpectation [] (status, Facade.mkEmptyResponse))
    (mkExpectation [] (status, Facade.mkListResponse [])).

(** A request class for [AddParametersToHttpRequest] that keeps a record of
    what its [AddWellKnownParameter] is handed: the name of each parameter
    with the text of its value, the empty text for a parameter without a
    value. *)
Definition record_parameter (p : StorageParameters.Modifier)
  (request : list (string * string)) : list (string * string) :=
  (request
   ++ [(StorageParameters.parameter_name (RequestParameters.kind p),
        match RequestParameters.value p with
        | Some v => StorageParameters.show_value v
        | None => ""
        end)])%list.

(** The default action of the mock: a default-constructed pair. *)
Definition no_action : Status * string := (mkStatus OK "", "").

(** A backoff policy for the tests. *)
Definition backoff : RetryClient.ExponentialBackoffPolicy :=
  RetryClient.mkExponentialBackoff 1 8.

(** [Client client{mock, Client::NoRetry{}}] *)
Definition NoRetry_client
  : Facade.Client (MockClient string string string) string string string
      (P := RetryClient.LimitedErrorCountRetryPolicy)
      (B := RetryClient.ExponentialBackoffPolicy) :=
  Facade.Client_NoRetry mock_RawClient.

(** The world before a test makes its call. *)
Definition fresh {ClientState} (client : ClientState) : World ClientState :=
  mkWorld client 0 [] [].

End Testing.

(** ** logging_client.cc: the [LoggingClient] class *)

Module LoggingClientClass.

Import Pipeline.

(** The operations of [RawClient] that [LoggingClient] overrides. *)
Inductive Operation : Type :=
| ListBuckets
| GetBucketMetadata
| InsertObjectMedia
| GetObjectMetadata
| ReadObjectRangeMedia
| ListObjects
| DeleteObject
| ListObjectAcl.

(** [__func__] in the method of [LoggingClient] for an operation. *)
Definition func (operation : Operation) : string :=
  match operation with
  | ListBuckets => "ListBuckets"
  | GetBucketMetadata => "GetBucketMetadata"
  | InsertObjectMedia => "InsertObjectMedia"
  | GetObjectMetadata => "GetObjectMetadata"
  | ReadObjectRangeMedia => "ReadObjectRangeMedia"
  | ListObjects => "ListObjects"
  | DeleteObject => "DeleteObject"
  | ListObjectAcl => "ListObjectAcl"
  end.

Section Class.

Variable ClientState : Type.

(** The classes of the options, the requests and the responses are declared
    in headers that are not part of the sources: they are parameters, with
    the stream operators of the requests and the responses. *)
Variable ClientOptions : Type.
Variables RequestType ResponseType : Operation -> Type.
Variable show_request : forall operation, RequestType operation -> string.
Variable show_status : Status -> string.
Variable show_response : forall operation, ResponseType operation -> string.

(** [internal::RawClient]: [client_options()], a const member, and one
    method for each operation. *)
Record RawClient : Type := mkRawClient {
  client_options : ClientState -> ClientOptions;
  method :
    forall operation,
      RawOperation ClientState (RequestType operation) (ResponseType operation)
}.

(** [LoggingClient::LoggingClient(client)] with the methods of the class:
    [client_options()] returns [client_->client_options()], and the method
    for an operation returns
    [MakeCall( *client_, &RawClient::Operation, request, __func__)]. *)
Definition new_LoggingClient (client_ : RawClient) : RawClient :=
  {| client_options := client_options client_;
     method := fun operation request =>
       LoggingClient.MakeCall (show_request operation) show_status
         (show_response operation) (method client_ operation) request
         (func operation) |}.

(** A transport as a [RawClient]: every method is a member function of the
    transport itself. *)
Definition transport (options : ClientState -> ClientOptions)
  (functions :
     forall operation,
       MemberFunction ClientState (RequestType operation)
         (ResponseType operation))
  : RawClient :=
  {| client_options := options;
     method := fun operation => invoke (functions operation) |}.

(** A client inside [n] logging decorators. *)
Fixpoint decorated (n : nat) (client_ : RawClient) : RawClient :=
  match n with
  | 0 => client_
  | S n' => new_LoggingClient (decorated n' client_)
  end.

End Class.

Arguments mkRawClient {ClientState ClientOptions RequestType ResponseType} _ _.
Arguments client_options {ClientState ClientOptions RequestType ResponseType}
  _ _.
Arguments method {ClientState ClientOptions RequestType ResponseType} _ _ _ _.
Arguments new_LoggingClient {ClientState ClientOptions RequestType
  ResponseType} _ _ _ _.
Arguments transport {ClientState ClientOptions RequestType ResponseType} _ _.
Arguments decorated {ClientState ClientOptions RequestType ResponseType}
  _ _ _ _ _.

Section Calls.

Variable ClientState : Type.
Variables Request Response : Type.

(** One call after the other on an operation, with the pairs they return. *)
Fixpoint call_each (operation : RawOperation ClientState Request Response)
  (requests : list Request) : M ClientState (list (Status * Response)) :=
  match requests with
  | [] => ret []
  | request :: rest =>
      (response <- operation request ;;
       responses <- call_each operation rest ;;
       ret (response :: responses))%pipeline
  end.

(** The same calls on the member function of the transport, state to
    state. *)
Fixpoint transport_run (function : MemberFunction ClientState Request Response)
  (requests : list Request) (s : ClientState)
  : list (Status * Response) * ClientState :=
  match requests with
  | [] => ([], s)
  | request :: rest =>
      let (response, s') := function request s in
      let (responses, s'') := transport_run function rest s' in
      (response :: responses, s'')
  end.

(** The lines that the logging decorator writes for calls and the pairs they
    returned. *)
Definition logged_lines (show_request : Request -> string)
  (show_status : Status -> string) (show_response : Response -> string)
  (context : string) (calls : list (Request * (Status * Response)))
  : list string :=
  flat_map
    (fun call =>
       [LoggingClient.request_line show_request context (fst call);
        LoggingClient.response_line show_status show_response context
          (snd call)])
    calls.

End Calls.

Arguments call_each {ClientState Request Response} _ _ _.
Arguments transport_run {ClientState Request Response} _ _ _.
Arguments logged_lines {Request Response} _ _ _ _ _.

End LoggingClientClass.

(** ** A [LoggingClient] behind the facade *)

Module LoggedFacade.

Import Pipeline LoggingClientClass.

Section Upcast.

Variables ClientState ClientOptions : Type.
Variables BucketMetadata ObjectMetadata ObjectAccessControl : Type.

(** The requests and responses of the operations that the facade reaches
    only through code that is not part of the sources. *)
Variables OtherRequest OtherResponse : Operation -> Type.

(** The request and the response of each operation, with the classes of
    [Facade] for the operations that the methods of [Client] call on
    [raw_client_] themselves. *)
Definition RequestType (operation : Operation) : Type :=
  match operation with
  | ListBuckets => Facade.ListBucketsRequest
  | GetObjectMetadata => Facade.GetObjectMetadataRequest
  | DeleteObject => Facade.DeleteObjectRequest
  | ListObjectAcl => Facade.ListObjectAclRequest
  | other => OtherRequest other
  end.

Definition ResponseType (operation : Operation) : Type :=
  match operation with
  | ListBuckets => Facade.ListResponse BucketMetadata
  | GetObjectMetadata => ObjectMetadata
  | DeleteObject => Facade.EmptyResponse
  | ListObjectAcl => Facade.ListResponse ObjectAccessControl
  | other => OtherResponse other
  end.

(** A [std::shared_ptr<internal::RawClient>] as [Client] uses it: the
    operations that its methods call. *)
Definition as_raw_client
  (c : RawClient ClientState ClientOptions RequestType ResponseType)
  : Facade.RawClient ClientState BucketMetadata ObjectMetadata
      ObjectAccessControl :=
  Facade.mkRawClient (method c ListBuckets) (method c GetObjectMetadata)
    (method c DeleteObject) (method c ListObjectAcl).

(** A world with another log. *)
Definition with_log (w : World ClientState) (lines : list string)
  : World ClientState :=
  {| client := client w; invocations := invocations w; log := lines;
     slept := slept w |}.

End Upcast.

Arguments RequestType _ _ : clear implicits.
Arguments ResponseType _ _ _ _ _ : clear implicits.
Arguments as_raw_client {ClientState ClientOptions BucketMetadata
  ObjectMetadata ObjectAccessControl OtherRequest OtherResponse} _.
Arguments with_log {ClientState} _ _.

End LoggedFacade.

(** ** request_parameters.h: the argument of a call *)

Module ParameterCalls.

Import RequestParameters.

(** The value category of an argument expression; an xvalue or a prvalue is
    an rvalue. *)
Inductive ValueCategory : Type :=
| lvalue
| rvalue.

Section Calls.

Variable Kind : Type.
Hypothesis Kind_eq_dec : forall a b : Kind, {a = b} + {a <> b}.
Variable Value : Type.

(** An argument expression whose type is a parameter class: its value
    category, whether its type is const-qualified, and the object it
    denotes. *)
Record Argument : Type := mkArgument {
  category : ValueCategory;
  const_qualified : bool;
  object : OptionalParameter Kind Value
}.

(** Whether the parameter [Parameter&& p] of [set_parameter] binds to an
    argument of class [Parameter]: to an rvalue that is not const. *)
Definition binds_to_rvalue_reference (a : Argument) : bool :=
  match category a with
  | rvalue => negb (const_qualified a)
  | lvalue => false
  end.

(** The call [set_parameter(a)]: overload resolution selects by the class
    of the argument, and the selected [set_parameter(Parameter&& p)] must
    bind to it.  [None]: the call does not compile. *)
Definition call_set_parameter (a : Argument)
  (l : RequestParameterList Kind Value)
  : option (RequestParameterList Kind Value) :=
  if binds_to_rvalue_reference a then set_parameter Kind_eq_dec (object a) l
  else None.

(** The call [set_multiple_parameters(a1, ..., an)]: [H&& h] and [T&&... tail]
    are forwarding references, and [std::forward] hands each argument to
    [set_parameter] with the value category and the constness it came
    with. *)
Fixpoint call_set_multiple_parameters (arguments : list Argument)
  (l : RequestParameterList Kind Value)
  : option (RequestParameterList Kind Value) :=
  match arguments with
  | [] => Some l
  | h :: tail =>
      obind (call_set_parameter h l) (call_set_multiple_parameters tail)
  end.

End Calls.

Arguments mkArgument {Kind Value} _ _ _.
Arguments category {Kind Value} _.
Arguments const_qualified {Kind Value} _.
Arguments object {Kind Value} _.
Arguments binds_to_rvalue_reference {Kind Value} _.
Arguments call_set_parameter {Kind} _ {Value} _ _.
Arguments call_set_multiple_parameters {Kind} _ {Value} _ _.

End ParameterCalls.

(** * Part II: the properties *)

(** ** Streams and substrings *)

Lemma append_assoc (a b c : string) : (a ++ b) ++ c = a ++ (b ++ c).
Proof. induction a as [|ch a IH]; simpl; [reflexivity | now rewrite IH]. Qed.

Lemma append_nil_r (a : string) : a ++ "" = a.
Proof. induction a as [|ch a IH]; simpl; [reflexivity | now rewrite IH]. Qed.

Lemma HasSubstr_here (needle post : string) : HasSubstr needle (needle ++ post).
Proof. exists "", post. reflexivity. Qed.

Lemma HasSubstr_append_l (needle pre hay : string) :
  HasSubstr needle hay -> HasSubstr needle (pre ++ hay).
Proof.
  intros (a & b & ->). exists (pre ++ a), b. now rewrite append_assoc.
Qed.

Lemma HasSubstr_tail (needle pre : string) : HasSubstr needle (pre ++ needle).
Proof. exists pre, "". now rewrite append_nil_r. Qed.

Lemma obind_assoc {A B C} (o : option A) (f : A -> option B)
  (g : B -> option C) :
  obind (obind o f) g = obind o (fun a => obind (f a) g).
Proof. destruct o; reflexivity. Qed.

Lemma obind_Some_r {A} (o : option A) : obind o Some = o.
Proof. destruct o; reflexivity. Qed.

(** ** The parameter lists *)

Module RequestParametersFacts.

Import RequestParameters.

Section Facts.

Context {Kind : Type} (Kind_eq_dec : forall a b : Kind, {a = b} + {a <> b}).
Context {Value : Type}.
Context (parameter_name : Kind -> string) (show_value : Value -> string).

Local Abbreviation OptionalParameter := (OptionalParameter Kind Value).
Local Abbreviation RequestParameterList := (RequestParameterList Kind Value).
Local Abbreviation set_parameter := (set_parameter Kind_eq_dec).
Local Abbreviation set_multiple_parameters := (set_multiple_parameters Kind_eq_dec).
Local Abbreviation set_each := (set_each Kind_eq_dec).
Local Abbreviation parameter_of_kind := (parameter_of_kind Kind_eq_dec).
Local Abbreviation DumpParameters := (DumpParameters parameter_name show_value).
Local Abbreviation dump_entry := (dump_entry parameter_name show_value).
Local Abbreviation dump_entries := (dump_entries parameter_name show_value).

(** *** Dumps *)

Lemma dump_text_cons (e : string) (es : list string) (sep : string) :
  dump_text (e :: es) sep = sep ++ e ++ dump_text es ", ".
Proof.
  destruct es as [|e' es]; simpl.
  - now rewrite append_nil_r.
  - reflexivity.
Qed.

Lemma DumpParameters_entries (l : RequestParameterList) :
  forall os sep, DumpParameters l os sep = os ++ dump_text (dump_entries l) sep.
Proof.
  unfold RequestParameters.dump_entries.
  induction l as [p | p base IH]; intros os sep; simpl.
  - unfold RequestParameters.dump_entry, stream_parameter.
    destruct (value p) as [v|]; simpl; [reflexivity | now rewrite append_nil_r].
  - unfold RequestParameters.dump_entry at 1. unfold stream_parameter.
    destruct (value p) as [v|]; rewrite IH; simpl app.
    + rewrite dump_text_cons. now rewrite !append_assoc.
    + reflexivity.
Qed.

Lemma dump_entry_absent (p : OptionalParameter) :
  has_value p = false -> dump_entry p = [].
Proof.
  unfold has_value, RequestParameters.dump_entry.
  destruct (value p); [discriminate | reflexivity].
Qed.

Lemma flat_map_dump_entry_present (ps : list OptionalParameter) :
  flat_map dump_entry ps = flat_map dump_entry (filter has_value ps).
Proof.
  induction ps as [|p ps IH]; simpl; [reflexivity |].
  destruct (has_value p) eqn:E; simpl.
  - now rewrite IH.
  - now rewrite (dump_entry_absent p E).
Qed.

(** C5.  The dump appends to the stream the text of exactly the parameters
    that are set, in declaration order: nothing when none is set, otherwise
    the separator the caller passed followed by the entries [name=value]
    joined by [", "].  A parameter that was never set contributes nothing:
    the entries are those of the present parameters alone. *)
Theorem DumpParameters_prints_set_parameters (l : RequestParameterList)
  (os sep : string) :
  DumpParameters l os sep = os ++ dump_text (dump_entries l) sep
  /\ dump_entries l = flat_map dump_entry (present l)
  /\ List.length (dump_entries l) = List.length (present l).
Proof.
  split; [apply DumpParameters_entries |].
  split; [apply flat_map_dump_entry_present |].
  unfold RequestParameters.dump_entries, present.
  induction (members l) as [|p ps IH]; simpl; [reflexivity |].
  rewrite List.length_app, IH.
  unfold has_value, RequestParameters.dump_entry.
  destruct (value p); reflexivity.
Qed.

(** *** Setting parameters *)

Lemma set_parameter_overwrite (p1 p2 : OptionalParameter) :
  kind p1 = kind p2 ->
  forall l, obind (set_parameter p1 l) (set_parameter p2) = set_parameter p2 l.
Proof.
  intros Hk l. induction l as [q | q base IH]; simpl.
  - rewrite Hk. destruct (Kind_eq_dec (kind p2) (kind q)) as [e|n]; simpl.
    + destruct (Kind_eq_dec (kind p2) (kind p1)); congruence.
    + reflexivity.
  - rewrite Hk. destruct (Kind_eq_dec (kind p2) (kind q)) as [e|n]; simpl.
    + destruct (Kind_eq_dec (kind p2) (kind p1)); congruence.
    + rewrite <- IH.
      destruct (set_parameter p1 base) as [base'|]; simpl; [| reflexivity].
      destruct (Kind_eq_dec (kind p2) (kind q)); [contradiction | reflexivity].
Qed.

Lemma set_parameter_commute (p q : OptionalParameter) :
  kind p <> kind q ->
  forall l,
    obind (set_parameter p l) (set_parameter q)
    = obind (set_parameter q l) (set_parameter p).
Proof.
  intros Hk l. induction l as [m | m base IH]; simpl.
  - destruct (Kind_eq_dec (kind p) (kind m)) as [ep|np],
             (Kind_eq_dec (kind q) (kind m)) as [eq|nq]; simpl;
      try congruence.
    + destruct (Kind_eq_dec (kind q) (kind p)); congruence.
    + destruct (Kind_eq_dec (kind p) (kind q)); congruence.
  - destruct (Kind_eq_dec (kind p) (kind m)) as [ep|np],
             (Kind_eq_dec (kind q) (kind m)) as [eq|nq]; simpl;
      try congruence.
    + destruct (Kind_eq_dec (kind q) (kind p)); [congruence |].
      destruct (set_parameter q base) as [base'|]; simpl; [| reflexivity].
      destruct (Kind_eq_dec (kind p) (kind m)); [reflexivity | contradiction].
    + destruct (Kind_eq_dec (kind p) (kind q)); [congruence |].
      destruct (set_parameter p base) as [base'|]; simpl; [| reflexivity].
      destruct (Kind_eq_dec (kind q) (kind m)); [reflexivity | contradiction].
    + destruct (set_parameter p base) as [bp|] eqn:Ep,
               (set_parameter q base) as [bq|] eqn:Eq; simpl in *.
      * destruct (Kind_eq_dec (kind q) (kind m)); [contradiction |].
        destruct (Kind_eq_dec (kind p) (kind m)); [contradiction |].
        now rewrite IH.
      * destruct (Kind_eq_dec (kind q) (kind m)); [contradiction |].
        now rewrite IH.
      * destruct (Kind_eq_dec (kind p) (kind m)); [contradiction |].
        now rewrite <- IH.
      * reflexivity.
Qed.

Lemma set_parameter_declared (p : OptionalParameter) (l : RequestParameterList) :
  In (kind p) (declared_kinds l) -> exists l', set_parameter p l = Some l'.
Proof.
  unfold declared_kinds.
  induction l as [q | q base IH]; simpl; intros Hin.
  - destruct (Kind_eq_dec (kind p) (kind q)); [eauto |].
    destruct Hin as [Hq | []]. congruence.
  - destruct (Kind_eq_dec (kind p) (kind q)); [eauto |].
    destruct Hin as [Hq | Hin]; [congruence |].
    destruct (IH Hin) as (base' & ->). simpl. eauto.
Qed.

Lemma set_parameter_declared_kinds (p : OptionalParameter)
  (l l' : RequestParameterList) :
  set_parameter p l = Some l' -> declared_kinds l' = declared_kinds l.
Proof.
  unfold declared_kinds. revert l'.
  induction l as [q | q base IH]; simpl; intros l'.
  - destruct (Kind_eq_dec (kind p) (kind q)) as [e|n]; [| discriminate].
    intros [= <-]. simpl. now rewrite e.
  - destruct (Kind_eq_dec (kind p) (kind q)) as [e|n].
    + intros [= <-]. simpl. now rewrite e.
    + destruct (set_parameter p base) as [base'|]; simpl; [| discriminate].
      intros [= <-]. simpl. now rewrite (IH base' eq_refl).
Qed.

Lemma set_parameter_selected (p : OptionalParameter)
  (l l' : RequestParameterList) :
  set_parameter p l = Some l' -> parameter_of_kind (kind p) l' = Some p.
Proof.
  unfold RequestParameters.parameter_of_kind. revert l'.
  induction l as [q | q base IH]; simpl; intros l'.
  - destruct (Kind_eq_dec (kind p) (kind q)) as [e|n]; [| discriminate].
    intros [= <-]. simpl.
    destruct (Kind_eq_dec (kind p) (kind p)); [reflexivity | contradiction].
  - destruct (Kind_eq_dec (kind p) (kind q)) as [e|n].
    + intros [= <-]. simpl.
      destruct (Kind_eq_dec (kind p) (kind p)); [reflexivity | contradiction].
    + destruct (set_parameter p base) as [base'|]; simpl; [| discriminate].
      intros [= <-]. simpl.
      destruct (Kind_eq_dec (kind p) (kind q)); [contradiction |].
      now apply IH.
Qed.

(** C6.  Setting [v1] and then [v2] of the same declared class leaves the
    request in the state that setting [v2] alone gives: the member of that
    class holds [v2], the one value it has, and no member was added. *)
Theorem set_parameter_last_write_wins (l : RequestParameterList)
  (v1 v2 : OptionalParameter) :
  kind v1 = kind v2 ->
  In (kind v2) (declared_kinds l) ->
  exists l',
    set_parameter v2 l = Some l'
    /\ obind (set_parameter v1 l) (set_parameter v2) = Some l'
    /\ parameter_of_kind (kind v2) l' = Some v2
    /\ declared_kinds l' = declared_kinds l.
Proof.
  intros Hk Hin.
  destruct (set_parameter_declared v2 l Hin) as (l' & Hset).
  exists l'. split; [exact Hset |].
  split; [now rewrite set_parameter_overwrite |].
  split; [now apply set_parameter_selected with (l := l) |].
  now apply set_parameter_declared_kinds with (p := v2).
Qed.

(** *** Setting several parameters *)

Lemma set_multiple_parameters_app (ps qs : list OptionalParameter) :
  forall l,
    set_multiple_parameters (ps ++ qs) l
    = obind (set_multiple_parameters ps l) (set_multiple_parameters qs).
Proof.
  induction ps as [|p ps IH]; intros l; simpl; [reflexivity |].
  destruct (set_parameter p l) as [l'|]; simpl; [apply IH | reflexivity].
Qed.

Lemma set_each_from (ps : list OptionalParameter) :
  forall o : option RequestParameterList,
    fold_left (fun acc p => obind acc (set_parameter p)) ps o
    = obind o (set_multiple_parameters ps).
Proof.
  induction ps as [|p ps IH]; intros o; simpl.
  - now rewrite obind_Some_r.
  - rewrite IH. now rewrite obind_assoc.
Qed.

Lemma set_parameter_shadowed (p1 p2 : OptionalParameter)
  (rs : list OptionalParameter) :
  kind p1 = kind p2 ->
  forall qs l,
    obind (set_parameter p1 l) (set_multiple_parameters (qs ++ p2 :: rs))
    = set_multiple_parameters (qs ++ p2 :: rs) l.
Proof.
  intros Hk. induction qs as [|q qs IH]; intros l; simpl.
  - rewrite <- (set_parameter_overwrite p1 p2 Hk l).
    now rewrite obind_assoc.
  - destruct (Kind_eq_dec (kind p1) (kind q)) as [e|n].
    + rewrite <- (set_parameter_overwrite p1 q e l).
      now rewrite obind_assoc.
    + rewrite <- obind_assoc.
      rewrite (set_parameter_commute p1 q n l).
      destruct (set_parameter q l) as [l'|]; simpl; [apply IH | reflexivity].
Qed.

Lemma set_multiple_parameters_declared (ps : list OptionalParameter) :
  forall l,
    (forall p, In p ps -> In (kind p) (declared_kinds l)) ->
    exists l', set_multiple_parameters ps l = Some l'.
Proof.
  induction ps as [|p ps IH]; intros l Hall; simpl; [eauto |].
  destruct (set_parameter_declared p l) as (l1 & Hset).
  { apply Hall. now left. }
  rewrite Hset. simpl. apply IH. intros p' Hp'.
  rewrite (set_parameter_declared_kinds p l l1 Hset).
  apply Hall. now right.
Qed.

(** C10.  Without arguments [set_multiple_parameters] returns the request
    unchanged; with arguments it is [set_parameter] applied to each of them
    in turn, from left to right.  So an argument that a later argument of the
    same class follows might as well be left out: the rightmost one wins.
    When every argument is of a declared class the call is accepted. *)
Theorem set_multiple_parameters_sequential (l : RequestParameterList) :
  set_multiple_parameters [] l = Some l
  /\ (forall ps, set_multiple_parameters ps l = set_each ps l)
  /\ (forall ps p1 qs p2 rs,
         kind p1 = kind p2 ->
         set_multiple_parameters (ps ++ p1 :: qs ++ p2 :: rs) l
         = set_multiple_parameters (ps ++ qs ++ p2 :: rs) l)
  /\ (forall ps,
         (forall p, In p ps -> In (kind p) (declared_kinds l)) ->
         exists l', set_multiple_parameters ps l = Some l').
Proof.
  split; [reflexivity |].
  split.
  { intros ps. unfold RequestParameters.set_each. now rewrite set_each_from. }
  split.
  { intros ps p1 qs p2 rs Hk.
    rewrite !set_multiple_parameters_app.
    destruct (set_multiple_parameters ps l) as [l'|]; simpl; [| reflexivity].
    now apply set_parameter_shadowed. }
  intros ps. apply set_multiple_parameters_declared.
Qed.

(** *** Parameters on the wire *)

Section Wire.

Context {HttpRequest : Type}.
Context (AddWellKnownParameter : OptionalParameter -> HttpRequest -> HttpRequest).

(** The hook of the transport encodes a present parameter and leaves the
    request alone for an absent one. *)
Hypothesis absent_contributes_nothing :
  forall p request, has_value p = false -> AddWellKnownParameter p request = request.

Lemma add_present_only (ps : list OptionalParameter) :
  forall request,
    fold_left (fun r p => AddWellKnownParameter p r) ps request
    = fold_left (fun r p => AddWellKnownParameter p r) (filter has_value ps)
        request.
Proof.
  induction ps as [|p ps IH]; intros request; simpl; [reflexivity |].
  destruct (has_value p) eqn:E; simpl.
  - apply IH.
  - rewrite (absent_contributes_nothing p request E). apply IH.
Qed.

Lemma AddParametersToHttpRequest_members (l : RequestParameterList) :
  forall request,
    AddParametersToHttpRequest AddWellKnownParameter l request
    = fold_left (fun r p => AddWellKnownParameter p r) (members l) request.
Proof.
  induction l as [p | p base IH]; intros request; simpl; [reflexivity |].
  apply IH.
Qed.

End Wire.


End Facts.

End RequestParametersFacts.

(** ** The logging decorator *)

Module LoggingClientFacts.

Import Pipeline LoggingClient.

Section Facts.

Context {ClientState Request Response : Type}.
Context (show_request : Request -> string) (show_status : Status -> string)
  (show_response : Response -> string).

Local Abbreviation MakeCall :=
  (MakeCall show_request show_status show_response).
Local Abbreviation request_line := (request_line show_request).
Local Abbreviation response_line := (response_line show_status show_response).

(** C4.  One call of the logging decorator runs the operation of the
    wrapped client once, on the world with the request line logged, and
    returns the (status, response) pair of that run as it is.  Around the
    transport itself: the transport is invoked exactly once, it steps once,
    and the world differs from that single invocation by the two log lines
    alone. *)
Theorem LoggingClient_MakeCall_transparent
  (client_function : RawOperation ClientState Request Response)
  (function : MemberFunction ClientState Request Response)
  (request : Request) (context : string) (w : World ClientState) :
  (let logged := snd (GCP_LOG (request_line context request) w) in
   MakeCall client_function request context w
   = (fst (client_function request logged),
      snd (GCP_LOG
             (response_line context (fst (client_function request logged)))
             (snd (client_function request logged)))))
  /\ MakeCall (invoke function) request context w
     = (fst (function request (client w)),
        {| client := snd (function request (client w));
           invocations := S (invocations w);
           log := (log w
                   ++ [request_line context request;
                       response_line context
                         (fst (function request (client w)))])%list;
           slept := slept w |}).
Proof.
  split.
  - unfold LoggingClient.MakeCall, bind, ret. cbn [GCP_LOG snd].
    destruct (client_function request _) as [response w2]. reflexivity.
  - unfold LoggingClient.MakeCall, bind, ret, invoke, GCP_LOG. cbn.
    destruct (function request (client w)) as [response s']. cbn.
    now rewrite <- app_assoc.
Qed.

End Facts.

End LoggingClientFacts.

(** ** The retry decorator *)

Module RetryClientFacts.

Import Pipeline RetryClient.

(** The decorator returns to its caller only with an OK status, whatever
    client it wraps. *)
Lemma retry_loop_returns_OK {ClientState Request Response P B : Type}
  `{RetryPolicy P} `{BackoffPolicy B} (have_exceptions : bool)
  (client_function : RawOperation ClientState Request Response)
  (request : Request) (error_message : string) (fuel : nat) :
  forall (rp : P) (bp : B) (w w' : World ClientState) result,
    retry_loop have_exceptions fuel rp bp client_function request
      error_message w
    = (Some (Returned result), w') ->
    status_kind (fst result) = OK.
Proof.
  induction fuel as [|fuel IH]; intros rp bp w w' result; [discriminate |].
  cbn [retry_loop]. unfold bind.
  destruct (client_function request w) as [r w1].
  destruct (status_kind (fst r)) eqn:Hk.
  - intros [= <- _]. exact Hk.
  - destruct (attempt_allowed rp (fst r)).
    + destruct (on_completion bp) as [delay bp'].
      cbn [sleep_for]. apply IH.
    + unfold ret, RaiseRuntimeError. destruct have_exceptions; discriminate.
  - unfold ret, RaiseRuntimeError. destruct have_exceptions; discriminate.
Qed.

Section Facts.

Context {ClientState Request Response : Type}.
Context (have_exceptions : bool).
Context (function : MemberFunction ClientState Request Response).
Context (request : Request) (error_message : string).

Local Abbreviation reply := (reply function request).
Local Abbreviation client_after := (client_after function request).
Local Abbreviation Fatal msg :=
  (RaiseRuntimeError have_exceptions msg : Outcome (Status * Response)).

(** *** One invocation of the transport *)

Lemma invoke_reply (w : World ClientState) :
  fst (invoke function request w) = reply 0 (client w).
Proof.
  unfold invoke, Pipeline.reply. simpl.
  now destruct (function request (client w)).
Qed.

Lemma invoke_world (w : World ClientState) :
  snd (invoke function request w)
  = {| client := client_after 1 (client w);
       invocations := S (invocations w);
       log := log w; slept := slept w |}.
Proof.
  unfold invoke. simpl. now destruct (function request (client w)).
Qed.

Lemma reply_shift (i : nat) (s : ClientState) :
  reply i (client_after 1 s) = reply (S i) s.
Proof. reflexivity. Qed.

Lemma client_after_shift (i : nat) (s : ClientState) :
  client_after i (client_after 1 s) = client_after (S i) s.
Proof. reflexivity. Qed.

(** *** One iteration of the loop *)

Section AnyPolicy.

Context {P B : Type} `{RetryPolicy P} `{BackoffPolicy B}.

Local Abbreviation retry_loop fuel retry_policy backoff_policy :=
  (@retry_loop ClientState Request Response P B _ _ have_exceptions fuel
     retry_policy backoff_policy (invoke function) request error_message).

Lemma retry_loop_OK (fuel : nat) (rp : P) (bp : B) (w : World ClientState) :
  status_kind (fst (reply 0 (client w))) = OK ->
  retry_loop (S fuel) rp bp w
  = (Some (Returned (reply 0 (client w))), snd (invoke function request w)).
Proof.
  intros Hk. cbn [RetryClient.retry_loop]. unfold bind.
  rewrite (surjective_pairing (invoke function request w)).
  rewrite invoke_reply, Hk. reflexivity.
Qed.

Lemma retry_loop_permanent (fuel : nat) (rp : P) (bp : B)
  (w : World ClientState) :
  status_kind (fst (reply 0 (client w))) = PermanentFailure ->
  retry_loop (S fuel) rp bp w
  = (Some (Fatal (permanent_error_in error_message)),
     snd (invoke function request w)).
Proof.
  intros Hk. cbn [RetryClient.retry_loop]. unfold bind.
  rewrite (surjective_pairing (invoke function request w)).
  rewrite invoke_reply, Hk. reflexivity.
Qed.

Lemma retry_loop_exhausted (fuel : nat) (rp : P) (bp : B)
  (w : World ClientState) :
  status_kind (fst (reply 0 (client w))) = TransientFailure ->
  attempt_allowed rp (fst (reply 0 (client w))) = false ->
  retry_loop (S fuel) rp bp w
  = (Some (Fatal (retry_policy_exhausted_in error_message)),
     snd (invoke function request w)).
Proof.
  intros Hk Hno. cbn [RetryClient.retry_loop]. unfold bind.
  rewrite (surjective_pairing (invoke function request w)).
  rewrite invoke_reply, Hk, Hno. reflexivity.
Qed.

Lemma retry_loop_retry (fuel : nat) (rp : P) (bp : B)
  (w : World ClientState) :
  status_kind (fst (reply 0 (client w))) = TransientFailure ->
  attempt_allowed rp (fst (reply 0 (client w))) = true ->
  retry_loop (S fuel) rp bp w
  = retry_loop fuel (count_attempt rp) (snd (on_completion bp))
      (snd (sleep_for (fst (on_completion bp))
              (snd (invoke function request w)))).
Proof.
  intros Hk Hyes. cbn [RetryClient.retry_loop]. unfold bind.
  rewrite (surjective_pairing (invoke function request w)).
  rewrite invoke_reply, Hk, Hyes.
  destruct (on_completion bp) as [delay bp']. reflexivity.
Qed.

(** *** Fatal errors name the reason class and the operation *)

Lemma RaiseRuntimeError_names (reason : string) :
  fatal_naming (Fatal (reason ++ " in " ++ error_message)) reason error_message.
Proof.
  unfold fatal_naming, RaiseRuntimeError.
  destruct have_exceptions; cbn [fatal_message]; eexists; (split; [reflexivity |]).
  - split; [apply HasSubstr_here |].
    rewrite <- append_assoc. apply HasSubstr_tail.
  - split; apply HasSubstr_append_l; [apply HasSubstr_here |].
    rewrite <- append_assoc. apply HasSubstr_tail.
Qed.

(** C2.  A permanent failure from the inner client ends the call at once:
    the inner client has been invoked exactly once, the thread has not
    slept, and the call ends in a fatal error whose message contains
    "Permanent error" and the name of the operation.  This holds for every
    retry policy and every backoff policy, in whatever state they are
    (whatever budget remains): neither is consulted. *)
Theorem permanent_failure_is_never_retried (fuel : nat) (rp : P) (bp : B)
  (w : World ClientState) :
  0 < fuel ->
  status_kind (fst (reply 0 (client w))) = PermanentFailure ->
  MakeCall have_exceptions fuel rp bp (invoke function) request error_message w
  = (Some (Fatal (permanent_error_in error_message)),
     {| client := client_after 1 (client w);
        invocations := S (invocations w);
        log := log w; slept := slept w |})
  /\ retry_loop fuel rp bp w
     = (Some (Fatal (permanent_error_in error_message)),
        {| client := client_after 1 (client w);
           invocations := S (invocations w);
           log := log w; slept := slept w |})
  /\ fatal_naming (Fatal (permanent_error_in error_message))
       "Permanent error" error_message.
Proof.
  intros Hfuel Hk.
  destruct fuel as [|fuel]; [lia |].
  split; [| split].
  - unfold MakeCall. rewrite (retry_loop_permanent _ _ _ _ Hk).
    now rewrite invoke_world.
  - rewrite (retry_loop_permanent _ _ _ _ Hk). now rewrite invoke_world.
  - apply (RaiseRuntimeError_names "Permanent error").
Qed.

End AnyPolicy.

(** *** The policy with an attempt budget *)

Section LimitedErrorCount.

Context {B : Type} `{BackoffPolicy B}.

Local Abbreviation retry_loop fuel retry_policy backoff_policy :=
  (@retry_loop ClientState Request Response LimitedErrorCountRetryPolicy B
     _ _ have_exceptions fuel retry_policy backoff_policy (invoke function)
     request error_message).

(** [k] transient failures within the budget: the loop goes round [k]
    times, each time invoking the inner client once and sleeping once. *)
Lemma retry_loop_transient_run (k : nat) :
  forall (fuel : nat) (rp : LimitedErrorCountRetryPolicy) (bp : B)
         (w : World ClientState),
    (forall i, i < k ->
               status_kind (fst (reply i (client w))) = TransientFailure) ->
    failure_count rp + k <= maximum_failures rp ->
    exists (bp' : B) (w' : World ClientState),
      retry_loop (k + fuel) rp bp w
      = retry_loop fuel
          (mkLimitedErrorCount (maximum_failures rp) (failure_count rp + k))
          bp' w'
      /\ client w' = client_after k (client w)
      /\ invocations w' = invocations w + k
      /\ log w' = log w
      /\ List.length (slept w') = List.length (slept w) + k.
Proof.
  induction k as [|k IH]; intros fuel rp bp w Htransient Hbudget.
  - exists bp, w. rewrite !Nat.add_0_r. destruct rp. simpl. auto.
  - assert (Hk : status_kind (fst (reply 0 (client w))) = TransientFailure)
      by (apply Htransient; lia).
    assert (Ha : attempt_allowed rp (fst (reply 0 (client w))) = true)
      by (simpl; apply Nat.ltb_lt; lia).
    cbn [Nat.add]. rewrite (retry_loop_retry _ _ _ _ Hk Ha).
    rewrite invoke_world.
    edestruct (IH fuel (count_attempt rp) (snd (on_completion bp)))
      as (bp' & w' & Hrun & Hclient & Hinv & Hlog & Hslept);
      [| | exists bp', w'; rewrite Hrun; clear Hrun].
    + intros i Hi. cbn [sleep_for snd client]. rewrite reply_shift.
      apply Htransient. lia.
    + simpl. lia.
    + cbn [sleep_for snd client invocations log slept] in *.
      rewrite Hclient, Hinv, Hlog, Hslept, List.length_app.
      cbn [count_attempt LimitedErrorCount_RetryPolicy maximum_failures
           failure_count List.length].
      rewrite client_after_shift.
      repeat split; try lia.
      f_equal. f_equal. lia.
Qed.

(** C1.  With an attempt budget of [N]: when the inner client answers
    [N + 1] calls in a row with a transient failure, it is invoked exactly
    [N + 1] times and the call ends in a fatal error whose message contains
    "Retry policy exhausted" and the name of the operation; when it answers
    [N] calls with a transient failure and the next with OK, it is invoked
    exactly [N + 1] times and the call returns the pair of that last
    answer. *)
Theorem retry_budget_is_honoured (fuel : nat)
  (rp : LimitedErrorCountRetryPolicy) (bp : B) (w : World ClientState) :
  maximum_failures rp < fuel ->
  ((forall i, i <= maximum_failures rp ->
              status_kind (fst (reply i (client w))) = TransientFailure) ->
   exists w',
     MakeCall have_exceptions fuel rp bp (invoke function) request
       error_message w
     = (Some (Fatal (retry_policy_exhausted_in error_message)), w')
     /\ invocations w' = invocations w + (maximum_failures rp + 1)
     /\ fatal_naming (Fatal (retry_policy_exhausted_in error_message))
          "Retry policy exhausted" error_message)
  /\ ((forall i, i < maximum_failures rp ->
                 status_kind (fst (reply i (client w))) = TransientFailure) ->
      status_kind (fst (reply (maximum_failures rp) (client w))) = OK ->
      exists w',
        MakeCall have_exceptions fuel rp bp (invoke function) request
          error_message w
        = (Some (Returned (reply (maximum_failures rp) (client w))), w')
        /\ invocations w' = invocations w + (maximum_failures rp + 1)).
Proof.
  intros Hfuel.
  set (N := maximum_failures rp) in *.
  destruct (Nat.le_exists_sub (S N) fuel Hfuel) as (rest & -> & _).
  replace (rest + S N) with (N + S rest) by lia.
  unfold MakeCall.
  split.
  - intros Htransient.
    destruct (retry_loop_transient_run N (S rest) (retry_clone rp)
                (backoff_clone bp) w)
      as (bp' & w' & Hrun & Hclient & Hinv & _).
    { intros i Hi. apply Htransient. lia. }
    { simpl. fold N. lia. }
    exists (snd (invoke function request w')).
    rewrite Hrun. cbn [retry_clone LimitedErrorCount_RetryPolicy
                        maximum_failures failure_count Nat.add].
    fold N.
    rewrite retry_loop_exhausted.
    + split; [reflexivity |].
      rewrite invoke_world. cbn [invocations].
      split; [lia |].
      apply (RaiseRuntimeError_names "Retry policy exhausted").
    + rewrite Hclient. apply (Htransient N). lia.
    + simpl. apply Nat.ltb_ge. lia.
  - intros Htransient HOK.
    destruct (retry_loop_transient_run N (S rest) (retry_clone rp)
                (backoff_clone bp) w)
      as (bp' & w' & Hrun & Hclient & Hinv & _).
    { exact Htransient. }
    { simpl. fold N. lia. }
    exists (snd (invoke function request w')).
    rewrite Hrun.
    rewrite retry_loop_OK.
    + rewrite Hclient. split; [reflexivity |].
      rewrite invoke_world. cbn [invocations]. lia.
    + rewrite Hclient. exact HOK.
Qed.

(** C8.  With a budget of zero attempts, a transient failure on the very
    first invocation ends the call as exhausted: the inner client has been
    invoked once and never again, and the thread has not slept. *)
Theorem zero_budget_fails_on_first_transient (fuel : nat)
  (rp : LimitedErrorCountRetryPolicy) (bp : B) (w : World ClientState) :
  maximum_failures rp = 0 ->
  0 < fuel ->
  status_kind (fst (reply 0 (client w))) = TransientFailure ->
  MakeCall have_exceptions fuel rp bp (invoke function) request error_message w
  = (Some (Fatal (retry_policy_exhausted_in error_message)),
     {| client := client_after 1 (client w);
        invocations := S (invocations w);
        log := log w; slept := slept w |})
  /\ fatal_naming (Fatal (retry_policy_exhausted_in error_message))
       "Retry policy exhausted" error_message.
Proof.
  intros Hzero Hfuel Hk. split.
  - destruct fuel as [|fuel]; [lia |].
    unfold MakeCall. rewrite retry_loop_exhausted.
    + now rewrite invoke_world.
    + exact Hk.
    + simpl. rewrite Hzero. reflexivity.
  - apply (RaiseRuntimeError_names "Retry policy exhausted").
Qed.

End LimitedErrorCount.

End Facts.

End RetryClientFacts.

(** ** The facade *)

Module FacadeFacts.

Import Pipeline StorageParameters Facade.

Section Facts.

Context {ClientState BucketMetadata ObjectMetadata ObjectAccessControl : Type}.
Context {P B : Type} `{RetryClient.RetryPolicy P} `{RetryClient.BackoffPolicy B}.
Context (have_exceptions : bool).

Local Abbreviation RawClient :=
  (RawClient ClientState BucketMetadata ObjectMetadata ObjectAccessControl).
Local Abbreviation Client :=
  (Client ClientState BucketMetadata ObjectMetadata ObjectAccessControl
     (P := P) (B := B)).

(** Behind a [RetryClient], [raw_client_] returns to the method only with an
    OK status: every failure has become a fatal error. *)
Lemma raw_client_with_policies_returns_OK {Request Response : Type}
  (client : RawClient) (rp : P) (bp : B)
  (operation : RawClient -> RawOperation ClientState Request Response)
  (name : string) (fuel : nat) (request : Request)
  (w w' : World ClientState) (result : Status * Response) :
  raw_client_ have_exceptions (Client_with_policies client rp bp) operation
    name fuel request w
  = (Some (Returned result), w') ->
  status_kind (fst result) = OK.
Proof.
  unfold raw_client_, RetryClient.MakeCall.
  apply RetryClientFacts.retry_loop_returns_OK.
Qed.

(** A client built with [NoRetry] hands the pair of the wrapped client to
    the method, whatever its status. *)
Lemma raw_client_NoRetry {Request Response : Type} (client : RawClient)
  (operation : RawClient -> RawOperation ClientState Request Response)
  (name : string) (fuel : nat) (request : Request) (w : World ClientState) :
  raw_client_ have_exceptions (Client_NoRetry client : Client) operation name
    fuel request w
  = (Some (Returned (fst (operation client request w))),
     snd (operation client request w)).
Proof.
  unfold raw_client_, bind, ret.
  now destruct (operation client request w).
Qed.

(** A method whose request is accepted: unfold it down to the call on
    [raw_client_] of a client built with [NoRetry]. *)
Ltac run_NoRetry_method method Hrequest :=
  unfold method; rewrite Hrequest; cbn [obind];
  eexists; split; [reflexivity |];
  unfold returning, bind, ret; rewrite raw_client_NoRetry; reflexivity.

(** X12.  The methods never look at the status: on a client built with
    [NoRetry] each of them calls the operation of the wrapped client once and
    returns to its caller whatever status that client gave, with the response
    that came with it. *)
Lemma NoRetry_methods_return (client : RawClient) (fuel : nat)
  (w : World ClientState) :
  (forall project_id modifiers request,
      set_multiple_parameters modifiers (new_ListBucketsRequest project_id)
      = Some request ->
      exists call,
        ListBuckets have_exceptions fuel (Client_NoRetry client : Client)
          project_id modifiers = Some call
        /\ call w
           = (Some (Returned
                      (items (snd (fst (Raw_ListBuckets client request w))))),
              snd (Raw_ListBuckets client request w)))
  /\ (forall bucket_name object_name modifiers request,
         set_multiple_parameters modifiers
           (new_GetObjectMetadataRequest bucket_name object_name)
         = Some request ->
         exists call,
           GetObjectMetadata have_exceptions fuel
             (Client_NoRetry client : Client) bucket_name object_name modifiers
           = Some call
           /\ call w
              = (Some (Returned
                         (snd (fst (Raw_GetObjectMetadata client request w)))),
                 snd (Raw_GetObjectMetadata client request w)))
  /\ (forall bucket_name object_name parameters request,
         set_multiple_parameters parameters
           (new_DeleteObjectRequest bucket_name object_name) = Some request ->
         exists call,
           DeleteObject have_exceptions fuel (Client_NoRetry client : Client)
             bucket_name object_name parameters = Some call
           /\ call w
              = (Some (Returned tt), snd (Raw_DeleteObject client request w)))
  /\ (forall bucket_name object_name parameters request,
         set_multiple_parameters parameters
           (new_ListObjectAclRequest bucket_name object_name) = Some request ->
         exists call,
           ListObjectAcl have_exceptions fuel (Client_NoRetry client : Client)
             bucket_name object_name parameters = Some call
           /\ call w
              = (Some (Returned
                         (items (snd (fst (Raw_ListObjectAcl client request w))))),
                 snd (Raw_ListObjectAcl client request w))).
Proof.
  repeat split.
  - intros project_id modifiers request Hrequest.
    run_NoRetry_method @ListBuckets Hrequest.
  - intros bucket_name object_name modifiers request Hrequest.
    run_NoRetry_method @GetObjectMetadata Hrequest.
  - intros bucket_name object_name parameters request Hrequest.
    run_NoRetry_method @DeleteObject Hrequest.
  - intros bucket_name object_name parameters request Hrequest.
    run_NoRetry_method @ListObjectAcl Hrequest.
Qed.

(** Behind a [RetryClient] a method returns to its caller only when the
    last answer of the wrapped client had an OK status. *)
Lemma with_policies_DeleteObject_returns_after_OK (client : RawClient)
  (rp : P) (bp : B) (fuel : nat) (bucket_name object_name : string)
  (parameters : list Modifier) (call : Call ClientState unit)
  (w w' : World ClientState) :
  DeleteObject have_exceptions fuel (Client_with_policies client rp bp)
    bucket_name object_name parameters = Some call ->
  call w = (Some (Returned tt), w') ->
  exists request result,
    raw_client_ have_exceptions (Client_with_policies client rp bp)
      Raw_DeleteObject "DeleteObject" fuel request w
    = (Some (Returned result), w')
    /\ status_kind (fst result) = OK.
Proof.
  unfold DeleteObject.
  destruct (set_multiple_parameters parameters _) as [request|];
    [| discriminate].
  cbn [obind]. intros [= <-]. unfold returning, bind, ret.
  cbn [raw_client_].
  destruct (RetryClient.MakeCall have_exceptions fuel rp bp
              (Raw_DeleteObject client) request "DeleteObject" w)
    as [[[result | e | msg] |] w1] eqn:E; cbn; try discriminate.
  intros [= <-]. exists request, result. split; [exact E |].
  exact (raw_client_with_policies_returns_OK client rp bp Raw_DeleteObject
           "DeleteObject" fuel request w w1 result E).
Qed.

End Facts.

End FacadeFacts.

(** ** The Bigtable helper *)

Module BigtableFacts.

Import Errors Bigtable.

(** C9.  [RaiseRpcError] never returns to its caller: where exceptions are
    available it raises a [GRpcError] that carries the given message and the
    status, elsewhere it aborts the process with a message that contains the
    given one. *)
Theorem RaiseRpcError_never_returns (have_exceptions : bool)
  (status : Grpc.Status) (msg : string) :
  match RaiseRpcError have_exceptions status msg with
  | Returned _ => False
  | Thrown e => have_exceptions = true /\ e = GRpcError msg status
  | Aborted m => have_exceptions = false /\ HasSubstr msg m
  end.
Proof.
  unfold RaiseRpcError. destruct have_exceptions.
  - split; reflexivity.
  - split; [reflexivity | apply HasSubstr_tail].
Qed.

End BigtableFacts.

(** ** Scenarios *)

Module Scenarios.

Import RequestParameters StorageParameters Pipeline RetryClient Facade Testing.

(** *** Parameter lists *)

Example DumpParameters_some_set :
  DumpParameters parameter_name show_value
    (Inherit (mkParameter UserProject (Some "my-project"))
       (Inherit (mkParameter Projection None)
          (Single (mkParameter Generation (Some "7")))))
    "ReadObjectRangeRequest={bucket_name=b" ", "
  = "ReadObjectRangeRequest={bucket_name=b, userProject=my-project, generation=7".
Proof. reflexivity. Qed.

Example DumpParameters_none_set :
  DumpParameters parameter_name show_value
    (unset UserProject [Projection; Generation])
    "ReadObjectRangeRequest={bucket_name=b" ", "
  = "ReadObjectRangeRequest={bucket_name=b".
Proof. reflexivity. Qed.

Example set_parameter_of_undeclared_class :
  set_parameter Kind_eq_dec (mkParameter MaxResults (Some "10"))
    (unset Generation [UserProject])
  = None.
Proof. reflexivity. Qed.

Lemma set_parameter_last_write_wins_witness :
  exists l',
    set_parameter Kind_eq_dec (mkParameter UserProject (Some "second"))
      (unset Generation [UserProject])
    = Some l'
    /\ obind
         (set_parameter Kind_eq_dec (mkParameter UserProject (Some "first"))
            (unset Generation [UserProject]))
         (set_parameter Kind_eq_dec (mkParameter UserProject (Some "second")))
       = Some l'
    /\ parameter_of_kind Kind_eq_dec UserProject l'
       = Some (mkParameter UserProject (Some "second"))
    /\ declared_kinds l' = [Generation; UserProject].
Proof.
  apply (RequestParametersFacts.set_parameter_last_write_wins Kind_eq_dec
           (unset Generation [UserProject])
           (mkParameter UserProject (Some "first"))
           (mkParameter UserProject (Some "second"))).
  - reflexivity.
  - simpl. auto.
Defined.

(** On the request of the transport only the parameters with a value reach
    the wire. *)
Example AddParametersToHttpRequest_wire_scenario :
  AddParametersToHttpRequest AddWellKnownParameter
    (Inherit (mkParameter UserProject (Some "my-project"))
       (Inherit (mkParameter Projection None)
          (Single (mkParameter Generation (Some "7")))))
    []
  = [("userProject", "my-project"); ("generation", "7")].
Proof. reflexivity. Qed.


Example set_multiple_parameters_rightmost_wins :
  RequestParameters.set_multiple_parameters Kind_eq_dec
    [mkParameter UserProject (Some "first"); mkParameter Generation (Some "7");
     mkParameter UserProject (Some "second")]
    (unset Generation [UserProject])
  = Some (Inherit (mkParameter Generation (Some "7"))
            (Single (mkParameter UserProject (Some "second")))).
Proof. reflexivity. Qed.

(** *** bucket_test.cc *)

(** [GetBucketMetadata]: one transient failure, then the metadata. *)
Example GetBucketMetadata_scenario :
  MakeCall true 5 (LimitedErrorCount 2) backoff
    (invoke (mock_function (Request := string))) "foo-bar-baz"
    "GetBucketMetadata"
    (fresh (mkExpectation
              [(TransientError, ""); (mkStatus OK "", "foo-bar-baz-metadata")]
              no_action))
  = (Some (Returned (mkStatus OK "", "foo-bar-baz-metadata")),
     mkWorld (mkExpectation [] no_action) 2 [] [1]).
Proof. reflexivity. Qed.

(** The same call with a logging decorator between the retry decorator and
    the mock: every attempt is logged once. *)
Example GetBucketMetadata_logged_scenario :
  MakeCall true 5 (LimitedErrorCount 2) backoff
    (fun request =>
       LoggingClient.MakeCall (fun r : string => r) message
         (fun r : string => r) (invoke mock_function) request
         "GetBucketMetadata")
    "foo-bar-baz" "GetBucketMetadata"
    (fresh (mkExpectation
              [(TransientError, ""); (mkStatus OK "", "foo-bar-baz-metadata")]
              no_action))
  = (Some (Returned (mkStatus OK "", "foo-bar-baz-metadata")),
     mkWorld (mkExpectation [] no_action) 2
       ["GetBucketMetadata << foo-bar-baz";
        "GetBucketMetadata >> status={try-again}, payload={}";
        "GetBucketMetadata << foo-bar-baz";
        "GetBucketMetadata >> status={}, payload={foo-bar-baz-metadata}"]
       [1]).
Proof. reflexivity. Qed.

(** [GetMetadataTooManyFailures] with a budget of 2, and the run of two
    transient failures followed by OK. *)
Lemma retry_budget_is_honoured_witness :
  2 < 5
  /\ (exists w',
         MakeCall true 5 (LimitedErrorCount 2) backoff
           (invoke (mock_function (Request := string))) "foo-bar-baz"
           "GetBucketMetadata"
           (fresh (mkExpectation
                     [(TransientError, ""); (TransientError, "");
                      (TransientError, "")]
                     no_action))
         = (Some (Thrown (runtime_error
                            "Retry policy exhausted in GetBucketMetadata")),
            w')
         /\ invocations w' = 3)
  /\ (exists w',
         MakeCall true 5 (LimitedErrorCount 2) backoff
           (invoke (mock_function (Request := string))) "foo-bar-baz"
           "GetBucketMetadata"
           (fresh (mkExpectation
                     [(TransientError, ""); (TransientError, "");
                      (mkStatus OK "", "foo-bar-baz-metadata")]
                     no_action))
         = (Some (Returned (mkStatus OK "", "foo-bar-baz-metadata")), w')
         /\ invocations w' = 3).
Proof.
  assert (Hfuel : 2 < 5) by lia.
  split; [exact Hfuel |].
  split.
  - destruct (RetryClientFacts.retry_budget_is_honoured true
                (mock_function (Request := string)) "foo-bar-baz"
                "GetBucketMetadata" 5 (LimitedErrorCount 2) backoff
                (fresh (mkExpectation
                          [(TransientError, ""); (TransientError, "");
                           (TransientError, "")]
                          no_action))
                Hfuel) as [Hexhausted _].
    destruct Hexhausted as (w' & Hcall & Hinvocations & _).
    + intros i Hi. destruct i as [|[|[|i]]]; [reflexivity .. | simpl in Hi; lia].
    + exists w'. split; [exact Hcall | exact Hinvocations].
  - destruct (RetryClientFacts.retry_budget_is_honoured true
                (mock_function (Request := string)) "foo-bar-baz"
                "GetBucketMetadata" 5 (LimitedErrorCount 2) backoff
                (fresh (mkExpectation
                          [(TransientError, ""); (TransientError, "");
                           (mkStatus OK "", "foo-bar-baz-metadata")]
                          no_action))
                Hfuel) as [_ Hsuccess].
    destruct Hsuccess as (w' & Hcall & Hinvocations).
    + intros i Hi. destruct i as [|[|i]]; [reflexivity .. | simpl in Hi; lia].
    + reflexivity.
    + exists w'. split; [exact Hcall | exact Hinvocations].
Defined.

(** [GetMetadataPermanentFailure], with a policy of budget 2 of which one
    attempt is already counted. *)
Lemma permanent_failure_is_never_retried_witness :
  MakeCall true 5 (mkLimitedErrorCount 2 1) backoff
    (invoke (mock_function (Request := string))) "foo-bar-baz"
    "GetBucketMetadata"
    (fresh (mkExpectation [(PermanentError, "")] no_action))
  = (Some (Thrown (runtime_error "Permanent error in GetBucketMetadata")),
     mkWorld (mkExpectation [] no_action) 1 [] [])
  /\ retry_loop true 5 (mkLimitedErrorCount 2 1) backoff
       (invoke (mock_function (Request := string))) "foo-bar-baz"
       "GetBucketMetadata"
       (fresh (mkExpectation [(PermanentError, "")] no_action))
     = (Some (Thrown (runtime_error "Permanent error in GetBucketMetadata")),
        mkWorld (mkExpectation [] no_action) 1 [] [])
  /\ fatal_naming
       (Thrown (runtime_error "Permanent error in GetBucketMetadata")
        : Outcome (Status * string))
       "Permanent error" "GetBucketMetadata".
Proof.
  apply (RetryClientFacts.permanent_failure_is_never_retried true
           (mock_function (Request := string)) "foo-bar-baz"
           "GetBucketMetadata" 5 (mkLimitedErrorCount 2 1) backoff
           (fresh (mkExpectation [(PermanentError, "")] no_action))).
  - lia.
  - reflexivity.
Defined.

(** A budget of zero attempts against a mock that fails transiently on every
    call, with exceptions compiled out. *)
Lemma zero_budget_fails_on_first_transient_witness :
  MakeCall false 5 (LimitedErrorCount 0) backoff
    (invoke (mock_function (Request := string))) "foo-bar-baz"
    "GetBucketMetadata" (fresh (mkExpectation [] (TransientError, "")))
  = (Some (Aborted
             "Aborting because exceptions are disabled: Retry policy exhausted in GetBucketMetadata"),
     mkWorld (mkExpectation [] (TransientError, "")) 1 [] [])
  /\ fatal_naming
       (Aborted
          "Aborting because exceptions are disabled: Retry policy exhausted in GetBucketMetadata"
        : Outcome (Status * string))
       "Retry policy exhausted" "GetBucketMetadata".
Proof.
  apply (RetryClientFacts.zero_budget_fails_on_first_transient false
           (mock_function (Request := string)) "foo-bar-baz"
           "GetBucketMetadata" 5 (LimitedErrorCount 0) backoff
           (fresh (mkExpectation [] (TransientError, "")))).
  - reflexivity.
  - lia.
  - reflexivity.
Defined.

(** *** The facade without the retry decorator *)

(** C3, at a client built with [Client(mock, NoRetry)] whose mock answers
    every call with [PermanentError()]: [DeleteObject] and [ListBuckets]
    invoke the mock once and return to their caller as after a success, the
    one with nothing, the other with the items that came with the failed
    status. *)
Theorem NoRetry_client_returns_with_failed_status :
  (exists call,
      DeleteObject true 1 NoRetry_client "bucket" "object" [] = Some call
      /\ call (fresh (always PermanentError))
         = (Some (Returned tt), mkWorld (always PermanentError) 1 [] []))
  /\ (exists call,
         ListBuckets true 1 NoRetry_client "project" [] = Some call
         /\ call (fresh (always PermanentError))
            = (Some (Returned ["stale-bucket"]),
               mkWorld (always PermanentError) 1 [] [])).
Proof.
  split; eexists; (split; [reflexivity |]); reflexivity.
Qed.

(** The same calls through [Client(mock, LimitedErrorCountRetryPolicy(2))]
    end in a fatal error. *)
Example with_policies_client_raises :
  (exists call,
      DeleteObject true 5
        (Client_with_policies mock_RawClient (LimitedErrorCount 2) backoff)
        "bucket" "object" [] = Some call
      /\ fst (call (fresh (always PermanentError)))
         = Some (Thrown (runtime_error "Permanent error in DeleteObject")))
  /\ (exists call,
         ListBuckets true 5
           (Client_with_policies mock_RawClient (LimitedErrorCount 2) backoff)
           "project" [] = Some call
         /\ fst (call (fresh (always TransientError)))
            = Some (Thrown (runtime_error
                              "Retry policy exhausted in ListBuckets"))).
Proof.
  split; eexists; (split; [reflexivity |]); reflexivity.
Qed.

(** *** throw_delegate_test.cc *)

Example RpcError_scenario :
  Bigtable.RaiseRpcError true (Grpc.mkStatus Grpc.UNAVAILABLE "try-again")
    "testing with char const*"
  = Thrown (GRpcError "testing with char const*"
              (Grpc.mkStatus Grpc.UNAVAILABLE "try-again"))
  /\ Bigtable.RaiseRpcError false (Grpc.mkStatus Grpc.UNAVAILABLE "try-again")
       "testing with char const*"
     = Aborted
         "Aborting because exceptions are disabled: testing with char const*".
Proof. split; reflexivity. Qed.

End Scenarios.

(** ** More on the parameter lists *)

Module RequestParametersMore.

Import RequestParameters.

Section Facts.

Context {Kind : Type} (Kind_eq_dec : forall a b : Kind, {a = b} + {a <> b}).
Context {Value : Type}.
Context (parameter_name : Kind -> string) (show_value : Value -> string).

Local Abbreviation OptionalParameter := (OptionalParameter Kind Value).
Local Abbreviation RequestParameterList := (RequestParameterList Kind Value).
Local Abbreviation set_parameter := (set_parameter Kind_eq_dec).
Local Abbreviation set_multiple_parameters := (set_multiple_parameters Kind_eq_dec).
Local Abbreviation parameter_of_kind := (parameter_of_kind Kind_eq_dec).
Local Abbreviation DumpParameters := (DumpParameters parameter_name show_value).
Local Abbreviation dump_entry := (dump_entry parameter_name show_value).
Local Abbreviation dump_entries := (dump_entries parameter_name show_value).

(** *** Which calls of [set_parameter] are accepted *)

Lemma set_parameter_accepted (p : OptionalParameter) (l : RequestParameterList) :
  forall l', set_parameter p l = Some l' -> In (kind p) (declared_kinds l).
Proof.
  unfold declared_kinds.
  induction l as [q | q base IH]; simpl; intros l'.
  - destruct (Kind_eq_dec (kind p) (kind q)) as [e|n]; [| discriminate].
    intros _. now left.
  - destruct (Kind_eq_dec (kind p) (kind q)) as [e|n]; [intros _; now left |].
    destruct (set_parameter p base) as [base'|] eqn:E; [| discriminate].
    intros _. right. now apply (IH base').
Qed.

Lemma set_parameter_rejected (p : OptionalParameter) (l : RequestParameterList) :
  set_parameter p l = None <-> ~ In (kind p) (declared_kinds l).
Proof.
  split.
  - intros Hnone Hin.
    destruct (RequestParametersFacts.set_parameter_declared Kind_eq_dec p l Hin)
      as (l' & Hsome).
    congruence.
  - intros Hnot. destruct (set_parameter p l) as [l'|] eqn:E; [| reflexivity].
    exfalso. apply Hnot. now apply (set_parameter_accepted p l l').
Qed.

(** *** What [set_parameter] leaves alone *)

Lemma set_parameter_frame (p : OptionalParameter) (l : RequestParameterList) :
  forall l',
    set_parameter p l = Some l' ->
    forall k, k <> kind p -> parameter_of_kind k l' = parameter_of_kind k l.
Proof.
  unfold RequestParameters.parameter_of_kind.
  induction l as [q | q base IH]; simpl; intros l'.
  - destruct (Kind_eq_dec (kind p) (kind q)) as [e|n]; [| discriminate].
    intros [= <-] k Hk. simpl.
    destruct (Kind_eq_dec k (kind p)), (Kind_eq_dec k (kind q)); congruence.
  - destruct (Kind_eq_dec (kind p) (kind q)) as [e|n].
    + intros [= <-] k Hk. simpl.
      destruct (Kind_eq_dec k (kind p)), (Kind_eq_dec k (kind q)); congruence.
    + destruct (set_parameter p base) as [base'|] eqn:E; [| discriminate].
      intros [= <-] k Hk. simpl.
      destruct (Kind_eq_dec k (kind q)); [reflexivity |].
      now apply (IH base').
Qed.

(** X2.  An accepted [set_parameter] changes the member of the parameter's
    class and nothing else: the member of every other class is the one it
    was, the declared classes are the same, and no member is added or
    removed. *)
Theorem set_parameter_changes_one_member (p : OptionalParameter)
  (l l' : RequestParameterList) :
  set_parameter p l = Some l' ->
  parameter_of_kind (kind p) l' = Some p
  /\ (forall k, k <> kind p -> parameter_of_kind k l' = parameter_of_kind k l)
  /\ declared_kinds l' = declared_kinds l
  /\ List.length (members l') = List.length (members l).
Proof.
  intros Hset.
  assert (Hkinds : declared_kinds l' = declared_kinds l)
    by exact (RequestParametersFacts.set_parameter_declared_kinds Kind_eq_dec
                p l l' Hset).
  split; [exact (RequestParametersFacts.set_parameter_selected Kind_eq_dec
                   p l l' Hset) |].
  split; [exact (set_parameter_frame p l l' Hset) |].
  split; [exact Hkinds |].
  unfold declared_kinds in Hkinds.
  apply (f_equal (@List.length Kind)) in Hkinds.
  now rewrite !List.length_map in Hkinds.
Qed.

(** X3.  Parameters of different classes can be set in either order: the
    two orders are accepted or rejected together and give the same
    request. *)
Theorem set_parameter_of_different_classes_commute (p q : OptionalParameter)
  (l : RequestParameterList) :
  kind p <> kind q ->
  obind (set_parameter p l) (set_parameter q)
  = obind (set_parameter q l) (set_parameter p).
Proof.
  intros Hk. now apply RequestParametersFacts.set_parameter_commute.
Qed.

(** *** Several parameters at once *)

Lemma set_multiple_parameters_swap (p q : OptionalParameter)
  (ps : list OptionalParameter) (l : RequestParameterList) :
  kind p <> kind q ->
  set_multiple_parameters (p :: q :: ps) l
  = set_multiple_parameters (q :: p :: ps) l.
Proof.
  intros Hk. cbn [RequestParameters.set_multiple_parameters].
  rewrite <- !obind_assoc.
  now rewrite (RequestParametersFacts.set_parameter_commute Kind_eq_dec p q Hk l).
Qed.

Lemma set_multiple_parameters_permutation (ps qs : list OptionalParameter) :
  Permutation ps qs ->
  NoDup (map kind ps) ->
  forall l, set_multiple_parameters ps l = set_multiple_parameters qs l.
Proof.
  induction 1 as [| x ps qs Hperm IH | x y ps | ps qs rs H1 IH1 H2 IH2];
    intros Hnodup l.
  - reflexivity.
  - cbn [RequestParameters.set_multiple_parameters].
    simpl in Hnodup. apply NoDup_cons_iff in Hnodup as [_ Hnodup].
    destruct (set_parameter x l) as [l'|]; simpl; [now apply IH | reflexivity].
  - apply set_multiple_parameters_swap.
    simpl in Hnodup. apply NoDup_cons_iff in Hnodup as [Hnotin _].
    intros Heq. apply Hnotin. left. now symmetry.
  - rewrite (IH1 Hnodup l). apply IH2.
    apply (Permutation_NoDup (l := map kind ps)); [| exact Hnodup].
    now apply Permutation_map.
Qed.

(** X4.  The arguments of one [set_multiple_parameters] call can be given in
    any order when no two of them are of the same class: every permutation
    of them is accepted or rejected alike and gives the same request. *)
Theorem set_multiple_parameters_in_any_order (ps qs : list OptionalParameter)
  (l : RequestParameterList) :
  Permutation ps qs ->
  NoDup (map kind ps) ->
  set_multiple_parameters ps l = set_multiple_parameters qs l.
Proof.
  intros Hperm Hnodup. now apply set_multiple_parameters_permutation.
Qed.

Lemma set_multiple_parameters_declared_kinds (ps : list OptionalParameter) :
  forall l l',
    set_multiple_parameters ps l = Some l' ->
    declared_kinds l' = declared_kinds l.
Proof.
  induction ps as [|p ps IH]; intros l l'; simpl.
  - now intros [= <-].
  - destruct (set_parameter p l) as [l1|] eqn:E; simpl; [| discriminate].
    intros Hrest. rewrite (IH l1 l' Hrest).
    exact (RequestParametersFacts.set_parameter_declared_kinds Kind_eq_dec
             p l l1 E).
Qed.

Lemma set_multiple_parameters_rejected (ps : list OptionalParameter) :
  forall l,
    set_multiple_parameters ps l = None
    <-> exists p, In p ps /\ ~ In (kind p) (declared_kinds l).
Proof.
  induction ps as [|p ps IH]; intros l; simpl.
  - split; [discriminate | intros (p & [] & _)].
  - destruct (set_parameter p l) as [l1|] eqn:E; simpl.
    + rewrite (IH l1).
      rewrite (RequestParametersFacts.set_parameter_declared_kinds Kind_eq_dec
                 p l l1 E).
      split.
      * intros (p' & Hin & Hnot). exists p'. split; [now right | exact Hnot].
      * intros (p' & [<- | Hin] & Hnot).
        -- exfalso. apply Hnot. now apply (set_parameter_accepted p l l1).
        -- exists p'. split; assumption.
    + split; [| reflexivity].
      intros _. exists p. split; [now left |].
      now apply set_parameter_rejected.
Qed.

(** X6.  Two [set_multiple_parameters] calls in a row are one call with the
    arguments of the first followed by those of the second. *)
Theorem set_multiple_parameters_twice (ps qs : list OptionalParameter)
  (l : RequestParameterList) :
  obind (set_multiple_parameters ps l) (set_multiple_parameters qs)
  = set_multiple_parameters (ps ++ qs) l.
Proof.
  symmetry. apply RequestParametersFacts.set_multiple_parameters_app.
Qed.

(** *** Dumps *)

Lemma dump_entries_none_present (l : RequestParameterList) :
  present l = [] -> dump_entries l = [].
Proof.
  intros Hnone. unfold RequestParameters.dump_entries.
  rewrite (RequestParametersFacts.flat_map_dump_entry_present parameter_name
             show_value (members l)).
  unfold present in Hnone. now rewrite Hnone.
Qed.

(** X7.  A dump only appends: what the stream held stays in front, and the
    text added does not depend on it.  When no parameter of the request is
    set the stream is left as it was, whatever the separator. *)
Theorem DumpParameters_appends (l : RequestParameterList) (os sep : string) :
  DumpParameters l os sep = os ++ DumpParameters l "" sep
  /\ (present l = [] -> DumpParameters l os sep = os).
Proof.
  rewrite !(RequestParametersFacts.DumpParameters_entries parameter_name
              show_value l).
  split; [reflexivity |].
  intros Hnone. rewrite (dump_entries_none_present l Hnone).
  apply append_nil_r.
Qed.

Lemma HasSubstr_dump_text (e : string) (es : list string) :
  In e es -> forall sep, HasSubstr e (dump_text es sep).
Proof.
  induction es as [|e' es IH]; intros Hin sep; [destruct Hin |].
  rewrite RequestParametersFacts.dump_text_cons.
  apply HasSubstr_append_l.
  destruct Hin as [-> | Hin].
  - apply HasSubstr_here.
  - apply HasSubstr_append_l. now apply IH.
Qed.

Lemma dump_entries_member (p : OptionalParameter) (v : Value)
  (l : RequestParameterList) :
  In p (members l) ->
  value p = Some v ->
  In (parameter_name (kind p) ++ "=" ++ show_value v) (dump_entries l).
Proof.
  intros Hin Hv. unfold RequestParameters.dump_entries.
  apply in_flat_map. exists p. split; [exact Hin |].
  unfold RequestParameters.dump_entry. rewrite Hv. now left.
Qed.

Lemma set_parameter_member (p : OptionalParameter) (l : RequestParameterList) :
  forall l', set_parameter p l = Some l' -> In p (members l').
Proof.
  induction l as [q | q base IH]; simpl; intros l'.
  - destruct (Kind_eq_dec (kind p) (kind q)); [| discriminate].
    intros [= <-]. now left.
  - destruct (Kind_eq_dec (kind p) (kind q)).
    + intros [= <-]. now left.
    + destruct (set_parameter p base) as [base'|] eqn:E; [| discriminate].
      intros [= <-]. right. now apply (IH base').
Qed.

(** X8.  A parameter that was set with a value shows in every later dump of
    the request: the dump has the entry [name=value] of that parameter. *)
Theorem DumpParameters_shows_set_parameter (p : OptionalParameter) (v : Value)
  (l l' : RequestParameterList) (os sep : string) :
  set_parameter p l = Some l' ->
  value p = Some v ->
  In (parameter_name (kind p) ++ "=" ++ show_value v) (dump_entries l')
  /\ HasSubstr (parameter_name (kind p) ++ "=" ++ show_value v)
       (DumpParameters l' os sep).
Proof.
  intros Hset Hv.
  assert (Hentry : In (parameter_name (kind p) ++ "=" ++ show_value v)
                     (dump_entries l'))
    by (apply dump_entries_member;
        [exact (set_parameter_member p l l' Hset) | exact Hv]).
  split; [exact Hentry |].
  rewrite (RequestParametersFacts.DumpParameters_entries parameter_name
             show_value l').
  apply HasSubstr_append_l. now apply HasSubstr_dump_text.
Qed.

Lemma replace_absent_class (p : OptionalParameter)
  (ms : list OptionalParameter) :
  ~ In (kind p) (map kind ms) ->
  map (fun m => if Kind_eq_dec (kind p) (kind m) then p else m) ms = ms.
Proof.
  induction ms as [|m ms IH]; intros Hnotin; simpl; [reflexivity |].
  destruct (Kind_eq_dec (kind p) (kind m)) as [e|n].
  - exfalso. apply Hnotin. left. now symmetry.
  - rewrite IH; [reflexivity |]. intros Hin. apply Hnotin. now right.
Qed.

Lemma set_parameter_members (p : OptionalParameter)
  (l : RequestParameterList) :
  NoDup (declared_kinds l) ->
  forall l',
    set_parameter p l = Some l' ->
    members l'
    = map (fun m => if Kind_eq_dec (kind p) (kind m) then p else m)
        (members l).
Proof.
  unfold declared_kinds.
  induction l as [q | q base IH]; simpl; intros Hnodup l'.
  - destruct (Kind_eq_dec (kind p) (kind q)); [| discriminate].
    now intros [= <-].
  - apply NoDup_cons_iff in Hnodup as [Hnotin Hnodup].
    destruct (Kind_eq_dec (kind p) (kind q)) as [e|n].
    + intros [= <-]. simpl. rewrite replace_absent_class; [reflexivity |].
      now rewrite e.
    + destruct (set_parameter p base) as [base'|] eqn:E; [| discriminate].
      intros [= <-]. simpl. now rewrite (IH Hnodup base').
Qed.

Lemma present_after_clearing (p : OptionalParameter)
  (ms : list OptionalParameter) :
  has_value p = false ->
  filter has_value
    (map (fun m => if Kind_eq_dec (kind p) (kind m) then p else m) ms)
  = filter (fun q => if Kind_eq_dec (kind p) (kind q) then false else true)
      (filter has_value ms).
Proof.
  intros Habsent. induction ms as [|m ms IH]; simpl; [reflexivity |].
  destruct (Kind_eq_dec (kind p) (kind m)) as [e|n].
  - rewrite Habsent, IH. destruct (has_value m); simpl; [| reflexivity].
    destruct (Kind_eq_dec (kind p) (kind m)); [reflexivity | contradiction].
  - rewrite IH. destruct (has_value m); simpl; [| reflexivity].
    destruct (Kind_eq_dec (kind p) (kind m)); [contradiction | reflexivity].
Qed.

(** X16.  Setting a parameter object that holds no value clears the
    parameter: in a request that declares every class once, the parameters
    present afterwards are those that were present before, in the same
    order, without the one of that class. *)
Theorem set_parameter_without_value_clears (p : OptionalParameter)
  (l l' : RequestParameterList) :
  NoDup (declared_kinds l) ->
  value p = None ->
  set_parameter p l = Some l' ->
  present l'
  = filter (fun q => if Kind_eq_dec (kind p) (kind q) then false else true)
      (present l)
  /\ (forall q, In q (present l') -> kind q <> kind p).
Proof.
  intros Hnodup Hnone Hset.
  assert (Hpresent :
            present l'
            = filter
                (fun q => if Kind_eq_dec (kind p) (kind q) then false else true)
                (present l)).
  { unfold present. rewrite (set_parameter_members p l Hnodup l' Hset).
    apply present_after_clearing. unfold has_value. now rewrite Hnone. }
  split; [exact Hpresent |].
  intros q Hq Hk. rewrite Hpresent in Hq.
  apply filter_In in Hq as [_ Hq].
  destruct (Kind_eq_dec (kind p) (kind q)); [discriminate | congruence].
Qed.

(** *** Parameters on the wire *)

(** X9.  [AddParametersToHttpRequest] hands every member of the list to the
    request's [AddWellKnownParameter], set or not, each exactly once and in
    the order of the template arguments: a request that records the
    arguments of its hook ends up with the members of the list. *)
Theorem AddParametersToHttpRequest_visits_every_member
  {HttpRequest : Type}
  (AddWellKnownParameter : OptionalParameter -> HttpRequest -> HttpRequest)
  (l : RequestParameterList) (request : HttpRequest)
  (seen : list OptionalParameter) :
  AddParametersToHttpRequest AddWellKnownParameter l request
  = fold_left (fun r p => AddWellKnownParameter p r) (members l) request
  /\ AddParametersToHttpRequest (fun p visited => visited ++ [p])%list l seen
     = (seen ++ members l)%list.
Proof.
  split; [apply RequestParametersFacts.AddParametersToHttpRequest_members |].
  revert seen. induction l as [p | p base IH]; intros seen; simpl.
  - reflexivity.
  - rewrite IH. now rewrite <- app_assoc.
Qed.

End Facts.

End RequestParametersMore.

(** ** More on the logging decorator *)

Module LoggingClientMore.

Import Pipeline LoggingClient LoggingClientClass.

(** One call of [MakeCall] around the transport. *)
Lemma MakeCall_invoke {ClientState Request Response : Type}
  (show_request : Request -> string) (show_status : Status -> string)
  (show_response : Response -> string)
  (function : MemberFunction ClientState Request Response)
  (request : Request) (context : string) (w : World ClientState) :
  MakeCall show_request show_status show_response (invoke function) request
    context w
  = (fst (function request (client w)),
     {| client := snd (function request (client w));
        invocations := S (invocations w);
        log := (log w
                ++ [request_line show_request context request;
                    response_line show_status show_response context
                      (fst (function request (client w)))])%list;
        slept := slept w |}).
Proof.
  unfold MakeCall, bind, ret, invoke, GCP_LOG. cbn.
  destruct (function request (client w)) as [response s']. cbn.
  now rewrite <- app_assoc.
Qed.

Section Sequences.

Context {ClientState Request Response : Type}.
Context (show_request : Request -> string) (show_status : Status -> string)
  (show_response : Response -> string).
Context (function : MemberFunction ClientState Request Response).
Context (context : string).

Local Abbreviation MakeCall :=
  (MakeCall show_request show_status show_response).
Local Abbreviation logged_lines :=
  (logged_lines show_request show_status show_response context).

Lemma call_each_invoke (requests : list Request) :
  forall w : World ClientState,
    call_each (invoke function) requests w
    = (fst (transport_run function requests (client w)),
       {| client := snd (transport_run function requests (client w));
          invocations := invocations w + List.length requests;
          log := log w; slept := slept w |}).
Proof.
  induction requests as [|request rest IH]; intros w.
  - destruct w. cbn. now rewrite Nat.add_0_r.
  - cbn [call_each transport_run]. unfold bind, ret, invoke at 1.
    destruct (function request (client w)) as [response s'].
    rewrite IH. cbn [client invocations log slept fst snd].
    destruct (transport_run function rest s') as [responses s''].
    cbn [fst snd List.length]. do 2 f_equal. lia.
Qed.

Lemma call_each_logged (requests : list Request) :
  forall w : World ClientState,
    call_each (fun request => MakeCall (invoke function) request context)
      requests w
    = (fst (transport_run function requests (client w)),
       {| client := snd (transport_run function requests (client w));
          invocations := invocations w + List.length requests;
          log := (log w
                  ++ logged_lines
                       (combine requests
                          (fst (transport_run function requests (client w)))))%list;
          slept := slept w |}).
Proof.
  induction requests as [|request rest IH]; intros w.
  - destruct w. cbn. now rewrite Nat.add_0_r, app_nil_r.
  - cbn [call_each transport_run]. unfold bind, ret.
    rewrite MakeCall_invoke.
    destruct (function request (client w)) as [response s'].
    rewrite IH. cbn [client invocations log slept fst snd].
    destruct (transport_run function rest s') as [responses s''].
    cbn [fst snd List.length combine].
    unfold LoggingClientClass.logged_lines. cbn [flat_map fst snd].
    rewrite <- !app_assoc. cbn [app].
    do 2 f_equal. lia.
Qed.

(** X10.  Any sequence of calls through the logging decorator is the same
    sequence on the transport: the same pairs come back in the same order,
    the transport goes through the same states and is invoked once for each
    call, and the thread never sleeps.  The only difference is the log, which
    gets the request line and the response line of each call, in order;
    without the decorator nothing is logged. *)
Theorem LoggingClient_refines_transport (requests : list Request)
  (w : World ClientState) :
  call_each (fun request => MakeCall (invoke function) request context)
    requests w
  = (fst (call_each (invoke function) requests w),
     {| client := client (snd (call_each (invoke function) requests w));
        invocations := invocations w + List.length requests;
        log := (log w
                ++ logged_lines
                     (combine requests
                        (fst (call_each (invoke function) requests w))))%list;
        slept := slept w |})
  /\ invocations (snd (call_each (invoke function) requests w))
     = invocations w + List.length requests
  /\ log (snd (call_each (invoke function) requests w)) = log w
  /\ List.length
       (logged_lines
          (combine requests (fst (call_each (invoke function) requests w))))
     = 2 * List.length requests.
Proof.
  rewrite call_each_logged, call_each_invoke. cbn [fst snd client invocations log].
  repeat split.
  generalize (client w). clear w.
  induction requests as [|request rest IH]; intros s; [reflexivity |].
  cbn [transport_run].
  destruct (function request s) as [response s'].
  specialize (IH s').
  destruct (transport_run function rest s') as [responses s''].
  cbn [fst combine List.length] in *.
  unfold LoggingClientClass.logged_lines in *. cbn [flat_map app List.length].
  rewrite IH. lia.
Qed.

End Sequences.

Section Stacking.

Context {ClientState ClientOptions : Type}.
Context {RequestType ResponseType : Operation -> Type}.
Context (show_request : forall operation, RequestType operation -> string).
Context (show_status : Status -> string).
Context (show_response : forall operation, ResponseType operation -> string).
Context (options : ClientState -> ClientOptions).
Context (functions :
           forall operation,
             MemberFunction ClientState (RequestType operation)
               (ResponseType operation)).

Local Abbreviation decorated n :=
  (decorated show_request show_status show_response n
     (transport options functions)).

Lemma repeat_snoc {A : Type} (x : A) (n : nat) :
  (repeat x n ++ [x])%list = x :: repeat x n.
Proof. induction n as [|n IH]; simpl; [reflexivity | now rewrite IH]. Qed.

(** X11.  However many logging decorators are stacked on a transport, a call
    of any method invokes the transport exactly once and returns its pair
    unaltered; each decorator adds its request line and its response line,
    named after the method, the request lines before the call and the
    response lines after it.  [client_options()] is the transport's at every
    depth. *)
Theorem stacked_LoggingClients_invoke_once (n : nat) (operation : Operation)
  (request : RequestType operation) (w : World ClientState) :
  method (decorated n) operation request w
  = (fst (functions operation request (client w)),
     {| client := snd (functions operation request (client w));
        invocations := S (invocations w);
        log := (log w
                ++ repeat
                     (request_line (show_request operation) (func operation)
                        request) n
                ++ repeat
                     (response_line show_status (show_response operation)
                        (func operation)
                        (fst (functions operation request (client w)))) n)%list;
        slept := slept w |})
  /\ client_options (decorated n) = options.
Proof.
  split.
  - revert w. induction n as [|n IH]; intros w.
    + cbn. unfold invoke.
      destruct (functions operation request (client w)) as [response s'].
      cbn. now rewrite app_nil_r.
    + cbn [LoggingClientClass.decorated new_LoggingClient method].
      unfold LoggingClient.MakeCall, bind, ret. cbn [GCP_LOG].
      rewrite IH. cbn [client invocations log slept fst snd].
      do 2 f_equal.
      rewrite <- !app_assoc. cbn [repeat app].
      now rewrite repeat_snoc.
  - induction n as [|n IH]; [reflexivity | exact IH].
Qed.

End Stacking.

End LoggingClientMore.

(** ** More on the facade *)

Module FacadeMore.

Import Pipeline StorageParameters Facade.

(** *** The modifiers of a call *)

Lemma Facade_set_multiple_parameters_permutation {Required : Type}
  (modifiers modifiers' : list Modifier) (request : GenericRequest Required) :
  Permutation modifiers modifiers' ->
  NoDup (map RequestParameters.kind modifiers) ->
  set_multiple_parameters modifiers request
  = set_multiple_parameters modifiers' request.
Proof.
  intros Hperm Hnodup. unfold set_multiple_parameters.
  now rewrite (RequestParametersMore.set_multiple_parameters_permutation
                 Kind_eq_dec modifiers modifiers' Hperm Hnodup).
Qed.

Section Facts.

Context {ClientState BucketMetadata ObjectMetadata ObjectAccessControl : Type}.
Context {P B : Type} `{RetryClient.RetryPolicy P} `{RetryClient.BackoffPolicy B}.
Context (have_exceptions : bool).

Local Abbreviation Client :=
  (Client ClientState BucketMetadata ObjectMetadata ObjectAccessControl
     (P := P) (B := B)).

(** X13.  The modifiers of a call can be given in any order when no two of
    them are of the same class: every method builds the same request from
    every permutation of them, so the call does the same, on a client with
    retry policies as on one without. *)
Theorem modifiers_in_any_order (fuel : nat) (c : Client)
  (modifiers modifiers' : list Modifier) :
  Permutation modifiers modifiers' ->
  NoDup (map RequestParameters.kind modifiers) ->
  (forall project_id,
      ListBuckets have_exceptions fuel c project_id modifiers
      = ListBuckets have_exceptions fuel c project_id modifiers')
  /\ (forall bucket_name object_name,
         GetObjectMetadata have_exceptions fuel c bucket_name object_name
           modifiers
         = GetObjectMetadata have_exceptions fuel c bucket_name object_name
             modifiers')
  /\ (forall bucket_name object_name,
         DeleteObject have_exceptions fuel c bucket_name object_name modifiers
         = DeleteObject have_exceptions fuel c bucket_name object_name
             modifiers')
  /\ (forall bucket_name object_name,
         ListObjectAcl have_exceptions fuel c bucket_name object_name modifiers
         = ListObjectAcl have_exceptions fuel c bucket_name object_name
             modifiers').
Proof.
  intros Hperm Hnodup.
  repeat split; intros;
    unfold ListBuckets, GetObjectMetadata, DeleteObject, ListObjectAcl;
    now rewrite (Facade_set_multiple_parameters_permutation modifiers
                   modifiers' _ Hperm Hnodup).
Qed.

End Facts.

End FacadeMore.

(** ** A logging decorator behind the facade *)

Module LoggedFacadeFacts.

Import Pipeline StorageParameters Facade LoggingClientClass LoggedFacade.

Section Facts.

Context {ClientState ClientOptions : Type}.
Context {BucketMetadata ObjectMetadata ObjectAccessControl : Type}.
Context {OtherRequest OtherResponse : Operation -> Type}.
Context {P B : Type} `{RetryClient.RetryPolicy P} `{RetryClient.BackoffPolicy B}.
Context (have_exceptions : bool).

Local Abbreviation RequestType := (RequestType OtherRequest).
Local Abbreviation ResponseType :=
  (ResponseType BucketMetadata ObjectMetadata ObjectAccessControl OtherResponse).

Context (show_request : forall operation, RequestType operation -> string).
Context (show_status : Status -> string).
Context (show_response : forall operation, ResponseType operation -> string).
Context (options : ClientState -> ClientOptions).
Context (functions :
           forall operation,
             MemberFunction ClientState (RequestType operation)
               (ResponseType operation)).

(** [Client(transport, NoRetry)] and
    [Client(std::make_shared<LoggingClient>(transport), NoRetry)]. *)
Local Abbreviation plain_client :=
  (Client_NoRetry (as_raw_client (transport options functions))
   : Client ClientState BucketMetadata ObjectMetadata ObjectAccessControl
       (P := P) (B := B)).
Local Abbreviation logged_client :=
  (Client_NoRetry
     (as_raw_client
        (new_LoggingClient show_request show_status show_response
           (transport options functions)))
   : Client ClientState BucketMetadata ObjectMetadata ObjectAccessControl
       (P := P) (B := B)).

(** The two lines that the decorator logs for a call. *)
Local Abbreviation lines operation request w :=
  [LoggingClient.request_line (show_request operation) (func operation)
     request;
   LoggingClient.response_line show_status (show_response operation)
     (func operation) (fst (functions operation request (client w)))].

(** The call through the decorator ends as the plain one, in the same world
    but for the two lines more in the log. *)
Local Abbreviation same_but_logged plain logged operation request w :=
  (fst (logged w) = fst (plain w)
   /\ snd (logged w)
      = with_log (snd (plain w))
          (List.app (log (snd (plain w))) (lines operation request w))).

Lemma returning_NoRetry_plain {A : Type} (operation : Operation)
  (select :
     Facade.RawClient ClientState BucketMetadata ObjectMetadata
       ObjectAccessControl ->
     RawOperation ClientState (RequestType operation) (ResponseType operation))
  (name : string) (fuel : nat) (request : RequestType operation)
  (f : Status * ResponseType operation -> A) (w : World ClientState) :
  select (as_raw_client (transport options functions))
  = invoke (functions operation) ->
  returning (raw_client_ have_exceptions plain_client select name fuel request)
    f w
  = (Some (Returned (f (fst (functions operation request (client w))))),
     {| client := snd (functions operation request (client w));
        invocations := S (invocations w);
        log := log w; slept := slept w |}).
Proof.
  intros Hselect. unfold returning, raw_client_, bind, ret.
  rewrite Hselect. unfold invoke.
  now destruct (functions operation request (client w)).
Qed.

Lemma returning_NoRetry_logged {A : Type} (operation : Operation)
  (select :
     Facade.RawClient ClientState BucketMetadata ObjectMetadata
       ObjectAccessControl ->
     RawOperation ClientState (RequestType operation) (ResponseType operation))
  (name : string) (fuel : nat) (request : RequestType operation)
  (f : Status * ResponseType operation -> A) (w : World ClientState) :
  select
    (as_raw_client
       (new_LoggingClient show_request show_status show_response
          (transport options functions)))
  = (fun request =>
       LoggingClient.MakeCall (show_request operation) show_status
         (show_response operation) (invoke (functions operation)) request
         (func operation)) ->
  returning (raw_client_ have_exceptions logged_client select name fuel request)
    f w
  = (Some (Returned (f (fst (functions operation request (client w))))),
     {| client := snd (functions operation request (client w));
        invocations := S (invocations w);
        log := List.app (log w) (lines operation request w);
        slept := slept w |}).
Proof.
  intros Hselect. unfold returning, raw_client_, bind, ret.
  rewrite Hselect. now rewrite LoggingClientMore.MakeCall_invoke.
Qed.

(** Both clients on an accepted request. *)
Ltac compare_clients method Hrequest operation :=
  unfold method; rewrite Hrequest; cbn [obind];
  do 2 eexists; split; [reflexivity |]; split; [reflexivity |];
  rewrite (returning_NoRetry_plain operation) by reflexivity;
  rewrite (returning_NoRetry_logged operation) by reflexivity;
  split; reflexivity.

(** X15.  A logging decorator between a client built with [NoRetry] and the
    transport does not show in what the methods do: each method ends with
    the same value, the transport has been invoked once and is in the same
    state, and the world differs by the request line and the response line
    of the call alone, named after the operation. *)
Theorem LoggingClient_is_transparent_to_the_facade (fuel : nat)
  (w : World ClientState) :
  (forall project_id modifiers request,
      set_multiple_parameters modifiers (new_ListBucketsRequest project_id)
      = Some request ->
      exists plain logged,
        Facade.ListBuckets have_exceptions fuel plain_client project_id modifiers
        = Some plain
        /\ Facade.ListBuckets have_exceptions fuel logged_client project_id modifiers
           = Some logged
        /\ same_but_logged plain logged ListBuckets request w)
  /\ (forall bucket_name object_name modifiers request,
         set_multiple_parameters modifiers
           (new_GetObjectMetadataRequest bucket_name object_name)
         = Some request ->
         exists plain logged,
           Facade.GetObjectMetadata have_exceptions fuel plain_client bucket_name
             object_name modifiers = Some plain
           /\ Facade.GetObjectMetadata have_exceptions fuel logged_client bucket_name
                object_name modifiers = Some logged
           /\ same_but_logged plain logged GetObjectMetadata request w)
  /\ (forall bucket_name object_name parameters request,
         set_multiple_parameters parameters
           (new_DeleteObjectRequest bucket_name object_name)
         = Some request ->
         exists plain logged,
           Facade.DeleteObject have_exceptions fuel plain_client bucket_name
             object_name parameters = Some plain
           /\ Facade.DeleteObject have_exceptions fuel logged_client
                bucket_name object_name parameters = Some logged
           /\ same_but_logged plain logged DeleteObject request w)
  /\ (forall bucket_name object_name parameters request,
         set_multiple_parameters parameters
           (new_ListObjectAclRequest bucket_name object_name)
         = Some request ->
         exists plain logged,
           Facade.ListObjectAcl have_exceptions fuel plain_client bucket_name
             object_name parameters = Some plain
           /\ Facade.ListObjectAcl have_exceptions fuel logged_client
                bucket_name object_name parameters = Some logged
           /\ same_but_logged plain logged ListObjectAcl request w).
Proof.
  repeat apply conj.
  - intros project_id modifiers request Hrequest.
    compare_clients @Facade.ListBuckets Hrequest ListBuckets.
  - intros bucket_name object_name modifiers request Hrequest.
    compare_clients @Facade.GetObjectMetadata Hrequest GetObjectMetadata.
  - intros bucket_name object_name parameters request Hrequest.
    compare_clients @Facade.DeleteObject Hrequest DeleteObject.
  - intros bucket_name object_name parameters request Hrequest.
    compare_clients @Facade.ListObjectAcl Hrequest ListObjectAcl.
Qed.

End Facts.

End LoggedFacadeFacts.

(** ** More scenarios *)

Module MoreScenarios.

Import RequestParameters StorageParameters Pipeline RetryClient Testing.

Lemma set_parameter_changes_one_member_witness :
  parameter_of_kind Kind_eq_dec UserProject
    (Inherit (mkParameter Generation (Some "7"))
       (Single (mkParameter UserProject (Some "my-project"))))
  = Some (mkParameter UserProject (Some "my-project"))
  /\ (forall k,
         k <> UserProject ->
         parameter_of_kind Kind_eq_dec k
           (Inherit (mkParameter Generation (Some "7"))
              (Single (mkParameter UserProject (Some "my-project"))))
         = parameter_of_kind Kind_eq_dec k
             (Inherit (mkParameter Generation (Some "7"))
                (Single (mkParameter UserProject None))))
  /\ declared_kinds
       (Inherit (mkParameter Generation (Some "7"))
          (Single (mkParameter UserProject (Some "my-project"))))
     = [Generation; UserProject]
  /\ List.length
       (members
          (Inherit (mkParameter Generation (Some "7"))
             (Single (mkParameter UserProject (Some "my-project")))))
     = 2.
Proof.
  apply (RequestParametersMore.set_parameter_changes_one_member Kind_eq_dec
           (mkParameter UserProject (Some "my-project"))
           (Inherit (mkParameter Generation (Some "7"))
              (Single (mkParameter UserProject None)))).
  reflexivity.
Defined.

Lemma set_parameter_of_different_classes_commute_witness :
  obind
    (set_parameter Kind_eq_dec (mkParameter UserProject (Some "my-project"))
       (unset Generation [UserProject]))
    (set_parameter Kind_eq_dec (mkParameter Generation (Some "7")))
  = obind
      (set_parameter Kind_eq_dec (mkParameter Generation (Some "7"))
         (unset Generation [UserProject]))
      (set_parameter Kind_eq_dec (mkParameter UserProject (Some "my-project"))).
Proof.
  apply (RequestParametersMore.set_parameter_of_different_classes_commute
           Kind_eq_dec (mkParameter UserProject (Some "my-project"))
           (mkParameter Generation (Some "7"))
           (unset Generation [UserProject])).
  simpl. discriminate.
Defined.

Lemma set_multiple_parameters_in_any_order_witness :
  RequestParameters.set_multiple_parameters Kind_eq_dec
    [mkParameter UserProject (Some "my-project");
     mkParameter Generation (Some "7")]
    (unset Generation [UserProject])
  = RequestParameters.set_multiple_parameters Kind_eq_dec
      [mkParameter Generation (Some "7");
       mkParameter UserProject (Some "my-project")]
      (unset Generation [UserProject]).
Proof.
  apply (RequestParametersMore.set_multiple_parameters_in_any_order
           Kind_eq_dec).
  - apply perm_swap.
  - simpl. apply NoDup_cons.
    + intros [Heq | []]. discriminate Heq.
    + apply NoDup_cons; [intros [] | apply NoDup_nil].
Defined.

Lemma DumpParameters_shows_set_parameter_witness :
  In "userProject=my-project"
    (dump_entries parameter_name show_value
       (Inherit (mkParameter Generation (Some "7"))
          (Single (mkParameter UserProject (Some "my-project")))))
  /\ HasSubstr "userProject=my-project"
       (DumpParameters parameter_name show_value
          (Inherit (mkParameter Generation (Some "7"))
             (Single (mkParameter UserProject (Some "my-project"))))
          "DeleteObjectRequest={bucket_name=b, object_name=o" ", ").
Proof.
  apply (RequestParametersMore.DumpParameters_shows_set_parameter Kind_eq_dec
           parameter_name show_value
           (mkParameter UserProject (Some "my-project")) "my-project"
           (Inherit (mkParameter Generation (Some "7"))
              (Single (mkParameter UserProject None)))).
  - reflexivity.
  - reflexivity.
Defined.

Lemma set_parameter_without_value_clears_witness :
  present
    (Inherit (mkParameter Generation (Some "7"))
       (Single (mkParameter UserProject None)))
  = [mkParameter Generation (Some "7")]
  /\ (forall q,
         In q
           (present
              (Inherit (mkParameter Generation (Some "7"))
                 (Single (mkParameter UserProject None)))) ->
         RequestParameters.kind q <> UserProject).
Proof.
  apply (RequestParametersMore.set_parameter_without_value_clears Kind_eq_dec
           (mkParameter UserProject None)
           (Inherit (mkParameter Generation (Some "7"))
              (Single (mkParameter UserProject (Some "my-project"))))).
  - simpl. apply NoDup_cons.
    + intros [Heq | []]. discriminate Heq.
    + apply NoDup_cons; [intros [] | apply NoDup_nil].
  - reflexivity.
  - reflexivity.
Defined.

Lemma modifiers_in_any_order_witness :
  (forall project_id,
      Facade.ListBuckets true 1 NoRetry_client project_id
        [mkParameter Prefix (Some "logs/"); mkParameter MaxResults (Some "5")]
      = Facade.ListBuckets true 1 NoRetry_client project_id
          [mkParameter MaxResults (Some "5");
           mkParameter Prefix (Some "logs/")])
  /\ (forall bucket_name object_name,
         Facade.GetObjectMetadata true 1 NoRetry_client bucket_name
           object_name
           [mkParameter Prefix (Some "logs/");
            mkParameter MaxResults (Some "5")]
         = Facade.GetObjectMetadata true 1 NoRetry_client bucket_name
             object_name
             [mkParameter MaxResults (Some "5");
              mkParameter Prefix (Some "logs/")])
  /\ (forall bucket_name object_name,
         Facade.DeleteObject true 1 NoRetry_client bucket_name object_name
           [mkParameter Prefix (Some "logs/");
            mkParameter MaxResults (Some "5")]
         = Facade.DeleteObject true 1 NoRetry_client bucket_name object_name
             [mkParameter MaxResults (Some "5");
              mkParameter Prefix (Some "logs/")])
  /\ (forall bucket_name object_name,
         Facade.ListObjectAcl true 1 NoRetry_client bucket_name object_name
           [mkParameter Prefix (Some "logs/");
            mkParameter MaxResults (Some "5")]
         = Facade.ListObjectAcl true 1 NoRetry_client bucket_name object_name
             [mkParameter MaxResults (Some "5");
              mkParameter Prefix (Some "logs/")]).
Proof.
  apply (FacadeMore.modifiers_in_any_order true 1 NoRetry_client).
  - apply perm_swap.
  - simpl. apply NoDup_cons.
    + intros [Heq | []]. discriminate Heq.
    + apply NoDup_cons; [intros [] | apply NoDup_nil].
Defined.

End MoreScenarios.

(** ** Which calls on a parameter list compile *)

Module ParameterCallsFacts.

Import RequestParameters ParameterCalls.

Section Facts.

Context {Kind : Type} (Kind_eq_dec : forall a b : Kind, {a = b} + {a <> b}).
Context {Value : Type}.

Local Abbreviation Argument := (Argument Kind Value).
Local Abbreviation RequestParameterList := (RequestParameterList Kind Value).
Local Abbreviation set_parameter := (set_parameter Kind_eq_dec).
Local Abbreviation set_multiple_parameters := (set_multiple_parameters Kind_eq_dec).
Local Abbreviation call_set_parameter := (call_set_parameter Kind_eq_dec).
Local Abbreviation call_set_multiple_parameters :=
  (call_set_multiple_parameters Kind_eq_dec).

Lemma call_set_parameter_rejected (a : Argument) (l : RequestParameterList) :
  call_set_parameter a l = None
  <-> binds_to_rvalue_reference a = false
      \/ ~ In (kind (object a)) (declared_kinds l).
Proof.
  unfold ParameterCalls.call_set_parameter.
  destruct (binds_to_rvalue_reference a).
  - rewrite (RequestParametersMore.set_parameter_rejected Kind_eq_dec).
    split; [now right | intros [Hbinds | Hnot]; [discriminate | exact Hnot]].
  - split; [now left | reflexivity].
Qed.


Lemma call_set_multiple_parameters_forallb (arguments : list Argument) :
  forall l,
    call_set_multiple_parameters arguments l
    = if forallb binds_to_rvalue_reference arguments
      then set_multiple_parameters (map object arguments) l
      else None.
Proof.
  induction arguments as [|h tail IH]; intros l; [reflexivity |].
  cbn [ParameterCalls.call_set_multiple_parameters forallb map
       RequestParameters.set_multiple_parameters].
  unfold ParameterCalls.call_set_parameter.
  destruct (binds_to_rvalue_reference h); cbn [andb obind]; [| reflexivity].
  destruct (set_parameter (object h) l) as [l1|]; cbn [obind].
  - apply IH.
  - now destruct (forallb binds_to_rvalue_reference tail).
Qed.


End Facts.

(** An lvalue of a declared class is rejected, the same object as an rvalue
    is accepted. *)
Example call_set_parameter_lvalue_scenario :
  ParameterCalls.call_set_parameter StorageParameters.Kind_eq_dec
    (mkArgument lvalue false
       (mkParameter StorageParameters.Prefix (Some "logs/")))
    (StorageParameters.unset StorageParameters.MaxResults
       [StorageParameters.Prefix])
  = None
  /\ ParameterCalls.call_set_parameter StorageParameters.Kind_eq_dec
       (mkArgument rvalue false
          (mkParameter StorageParameters.Prefix (Some "logs/")))
       (StorageParameters.unset StorageParameters.MaxResults
          [StorageParameters.Prefix])
     = Some (Inherit (mkParameter StorageParameters.MaxResults None)
               (Single (mkParameter StorageParameters.Prefix (Some "logs/")))).
Proof. split; reflexivity. Qed.

End ParameterCallsFacts.
